(** * synctree: the subbranch abstraction ([synctree/subbranch.py])

    A shallow embedding of [SubBranch], [SubBranchOff] and [SubBranchNarrow]:
    key-path addressing over the tree's node dictionary, the derived
    identifier set, the read path ([get], [get_objects], [find_all]), the
    synchronisation operators ([-] and [&]) and the import pipeline
    ([process_kwargs], [__pos__], [make]).

    Conventions of the embedding.
    - Python [str] is [string]; only ASCII text is modelled, so [str.lower]
      acts on the letters A-Z and [str.strip] on the ASCII white space.
    - A Python [set] of identifiers is a [gset string]; the order in which
      Python enumerates a set is unspecified, here it is the order of
      [elements].
    - A [dict] with string keys is a [gmap string _]; keyword arguments
      ([**kwargs]) are such a dictionary.
    - An exception is a value of [exn] carried by [Res]; a [try/except]
      is a [match] on the raised exception.
    - An object reachable from [self] is part of the [SubBranch] record, and
      a method that mutates it returns the updated record. *)

From Stdlib Require Import String Ascii ZArith List.
From stdpp Require Import base option list gmap strings pretty.

Open Scope string_scope.

(** ** Exceptions and results *)

Inductive exn : Type :=
  | KeyError
  | AttributeError
  | ValueError
  | TypeError
  | Duplicated.

Inductive Res (A : Type) : Type :=
  | Ok (a : A)
  | Raise (e : exn).
Arguments Ok {A} a.
Arguments Raise {A} e.

(** Sequencing: the first exception raised aborts what follows.  The
    notation [x ← m; k] is stdpp's, for this instance. *)
Global Instance Res_bind : MBind Res := λ A B k m,
  match m with
  | Ok a => k a
  | Raise e => Raise e
  end.

(** [[f(x) for x in l]]: the first exception aborts the comprehension. *)
Fixpoint mapM {A B : Type} (f : A → Res B) (l : list A) : Res (list B) :=
  match l with
  | [] => Ok []
  | x :: l' => y ← f x; ys ← mapM f l'; Ok (y :: ys)
  end.

(** ** The string methods the source calls *)

Module Py.

(** [s.startswith(p)] *)
Definition startswith (s p : string) : bool := String.prefix p s.

(** [s.endswith(p)] *)
Definition endswith (s p : string) : bool :=
  String.prefix (String.rev p) (String.rev s).

(** [s.split(sep)] for a one-character separator: never empty, and the
    empty string splits into one empty segment. *)
Fixpoint split (sep : ascii) (s : string) : list string :=
  match s with
  | "" => [""]
  | String c s' =>
      if decide (c = sep) then "" :: split sep s'
      else match split sep s' with
           | seg :: segs => String c seg :: segs
           | [] => [String c ""]
           end
  end.

(** [l[-1]] on a list of strings that is known to be non-empty. *)
Definition last_segment (l : list string) : string := List.last l "".

(** [sep.join(l)] *)
Fixpoint join (sep : ascii) (l : list string) : string :=
  match l with
  | [] => ""
  | [s] => s
  | s :: l' => s +:+ String sep (join sep l')
  end.

Definition lower_char (c : ascii) : ascii :=
  let n := nat_of_ascii c in
  if (65 <=? n)%nat && (n <=? 90)%nat then ascii_of_nat (n + 32) else c.

(** [s.lower()] *)
Fixpoint lower (s : string) : string :=
  match s with
  | "" => ""
  | String c s' => String (lower_char c) (lower s')
  end.

(** The ASCII characters for which [str.isspace] holds. *)
Definition is_space (c : ascii) : bool :=
  let n := nat_of_ascii c in
  ((9 <=? n)%nat && (n <=? 13)%nat) || ((28 <=? n)%nat && (n <=? 32)%nat).

Fixpoint lstrip (s : string) : string :=
  match s with
  | "" => ""
  | String c s' => if is_space c then lstrip s' else s
  end.

(** [s.strip()] *)
Definition strip (s : string) : string :=
  String.rev (lstrip (String.rev (lstrip s))).

(** [str(n)] for a non-negative integer. *)
Definition str (n : nat) : string := pretty n.

End Py.

(** ** Attribute values *)

(** The hashable scalars: [None], integers and strings. *)
Inductive Atom : Type :=
  | ANone
  | AInt (z : Z)
  | AStr (s : string).

Global Instance Atom_eq_dec : EqDecision Atom.
Proof. solve_decision. Defined.

Global Instance Atom_countable : Countable Atom.
Proof.
  refine (inj_countable'
    (λ a, match a with
          | ANone => inl ()
          | AInt z => inr (inl z)
          | AStr s => inr (inr s)
          end)
    (λ x, match x with
          | inl _ => ANone
          | inr (inl z) => AInt z
          | inr (inr s) => AStr s
          end) _).
  by intros [].
Defined.

(** A value carried by an attribute: a scalar, a [list] or a [set]. *)
#[warnings="-register-all"]
Inductive Value : Type :=
  | VAtom (a : Atom)
  | VList (l : list Value)
  | VSet (s : gset Atom).

Abbreviation VNone := (VAtom ANone).
Abbreviation VStr s := (VAtom (AStr s)).
Abbreviation VInt z := (VAtom (AInt z)).

(** [isinstance(v, list)], [isinstance(v, set)], [isinstance(v, (list, set))] *)
Definition is_list (v : Value) : bool :=
  match v with VList _ => true | _ => false end.
Definition is_set (v : Value) : bool :=
  match v with VSet _ => true | _ => false end.
Definition is_list_or_set (v : Value) : bool := is_list v || is_set v.

(** Python truthiness: [None], [0], the empty string, list and set are
    falsy. *)
Definition truthy (v : Value) : bool :=
  match v with
  | VAtom ANone => false
  | VAtom (AInt z) => negb (z =? 0)%Z
  | VAtom (AStr s) => negb (String.eqb s "")
  | VList l => match l with [] => false | _ => true end
  | VSet s => negb (bool_decide (s = ∅))
  end.

(** A keyword-argument dictionary / attribute mapping. *)
Abbreviation Attrs := (gmap string Value).

(** A payload object: a plain Python object holding its attributes. *)
Record Obj : Type := mkObj { __dict__ : Attrs }.

(** [getattr(obj, a)] without a default. *)
Definition getattr (obj : Obj) (a : string) : Res Value :=
  match __dict__ obj !! a with
  | Some v => Ok v
  | None => Raise AttributeError
  end.

(** ** The tree: nodes, key paths, lookup and insertion *)

(** A node of the tree: its payload, [None] for a placeholder. *)
Record Node : Type := mkNode { data : option Obj }.

(** Modelled from the spec: the Tree class is not part of the source file.
    It owns the node dictionary [_nodes] (full key path to node) and exposes
    the delimiter character [path_delim] that joins key segments. *)
Record Tree : Type := mkTree {
  path_delim : ascii;
  _nodes : gmap string Node
}.

(** Modelled from the spec: [tree.keypath] joins the segments it is given
    with the delimiter into the composite key, as [get_objects] does with
    [path_delim.join]. *)
Definition keypath (t : Tree) (segments : list string) : string :=
  Py.join (path_delim t) segments.

(** Modelled from the spec: [tree.get_node(key)], the look-up by key.  It
    answers Python's [None] for an absent key (treelib's behaviour, and the
    one [get]'s [except AttributeError] relies on). *)
Definition get_node (t : Tree) (key : string) : option Node := _nodes t !! key.

(** [node.data], where [node] may be Python's [None]. *)
Definition dot_data (node : option Node) : Res (option Obj) :=
  match node with
  | Some n => Ok (data n)
  | None => Raise AttributeError
  end.

(** [_nodes[key]]: dictionary subscript. *)
Definition subscript (nodes : gmap string Node) (key : string) : Res Node :=
  match nodes !! key with
  | Some n => Ok n
  | None => Raise KeyError
  end.

(** Modelled from the spec: [tree.new(branch, subbranch, idnumber, **kwargs)]
    inserts a node at the computed key path, its payload constructed from
    the keyword arguments, and is rejected with [Duplicated] when a node
    already exists at that key.  It returns the new payload object and the
    updated dictionary.  The payload holds the values it was constructed
    from: whether the real constructor keeps a reference to a list that the
    caller extends afterwards is not modelled, and nothing below is stated
    about a list or set held by a stored payload. *)
Definition new (t : Tree) (branchname subbranchname idnumber : string)
    (kwargs : Attrs) : Res (Obj * gmap string Node) :=
  let key := keypath t [branchname; subbranchname; idnumber] in
  match _nodes t !! key with
  | Some _ => Raise Duplicated
  | None =>
      let obj := mkObj kwargs in
      Ok (obj, <[key := mkNode (Some obj)]> (_nodes t))
  end.

(** ** Importers *)

(** Modelled from the spec: the importer classes are not part of the source
    file.  An importer supplies the record source ([reader], the records it
    yields; [reader_is_generator] tells which of the two shapes it has),
    the preprocessing hook (a record, or [None] to skip), the
    duplicate-resolution hook (existing payload and new attributes to an
    object or [None]; it may change the nodes and may raise) and an optional
    completion hook. *)
Record Importer : Type := mkImporter {
  reader : list Attrs;
  reader_is_generator : bool;
  kwargs_preprocessor : Attrs → option Attrs;
  resolve_duplicate :
    option Obj → Attrs → gmap string Node → Res (option Obj * gmap string Node);
  on_import_complete : option (gmap string Node → Res (gmap string Node))
}.

(** Modelled from the spec: the default importer, a no-op satisfying the
    contract. *)
Definition DefaultImporter : Importer :=
  mkImporter [] true (λ kw, Some kw) (λ _ _ nodes, Ok (None, nodes)) None.

(** ** Subbranches *)

(** What the run observes, in order (ghost state for the statements about
    how often and with what arguments [make] and the hooks are called). *)
Inductive Event : Type :=
  | EvBuffer (idnumber : string) (kwargs : Attrs)
  | EvMake (idnumber : string) (kwargs : Attrs)
  | EvResolve (existing : option Obj) (kwargs : Attrs)
  | EvComplete.

(** The three classes. *)
Inductive Klass : Type :=
  | KSubBranch
  | KSubBranchOff
  | KSubBranchNarrow (_to_narrow : list string).

Record Branch : Type := mkBranch {
  tree : Tree;
  branchname : string
}.

(** The instance attributes of a subbranch, with the objects they refer
    to.  [_temp] is the [defaultdict(list)] of buffered fragments in
    insertion order; [trace] is ghost. *)
Record SubBranch : Type := mkSubBranch {
  klass : Klass;
  branch : Branch;
  subbranchname : string;
  importer : Importer;
  _temp : list (string * list Attrs);
  _index : nat;
  trace : list Event
}.

(** The node dictionary [self.branch.tree._nodes]. *)
Definition nodes_of (self : SubBranch) : gmap string Node :=
  _nodes (tree (branch self)).

Definition set_nodes (self : SubBranch) (nodes : gmap string Node)
    : SubBranch :=
  mkSubBranch (klass self)
    (mkBranch (mkTree (path_delim (tree (branch self))) nodes)
       (branchname (branch self)))
    (subbranchname self) (importer self) (_temp self) (_index self)
    (trace self).

Definition set_temp (self : SubBranch) (tmp : list (string * list Attrs))
    : SubBranch :=
  mkSubBranch (klass self) (branch self) (subbranchname self) (importer self)
    tmp (_index self) (trace self).

Definition set_index (self : SubBranch) (i : nat) : SubBranch :=
  mkSubBranch (klass self) (branch self) (subbranchname self) (importer self)
    (_temp self) i (trace self).

Definition emit (self : SubBranch) (ev : Event) : SubBranch :=
  mkSubBranch (klass self) (branch self) (subbranchname self) (importer self)
    (_temp self) (_index self) (trace self ++ [ev])%list.

(** [__init__]: [parent_keypath] is computed from the branch and the
    subbranch name. *)
Definition parent_keypath (self : SubBranch) : string :=
  keypath (tree (branch self))
    [branchname (branch self); subbranchname self].

Definition self_path_delim (self : SubBranch) : ascii :=
  path_delim (tree (branch self)).

(** The key under which [get], [get_objects] and [make] address an
    identifier. *)
Definition object_key (self : SubBranch) (idnumber : string) : string :=
  keypath (tree (branch self))
    [branchname (branch self); subbranchname self; idnumber].

(** The condition of the set comprehension in [_idnumbers]. *)
Definition is_child_key (self : SubBranch) (key : string) : bool :=
  negb (Py.endswith key (subbranchname self)) &&
  Py.startswith key (parent_keypath self +:+ String (self_path_delim self) "").

(** [_idnumbers]: the set comprehension over the keys of [tree._nodes]. *)
Definition _idnumbers (self : SubBranch) : gset string :=
  set_map (λ key, Py.last_segment (Py.split (self_path_delim self) key))
    (filter (λ key, is_child_key self key = true)
       (dom (nodes_of self))).

(** [idnumbers], with the override of [SubBranchNarrow]. *)
Definition idnumbers (self : SubBranch) : gset string :=
  match klass self with
  | KSubBranchNarrow to_narrow => list_to_set to_narrow
  | _ => _idnumbers self
  end.

(** [get(idnumber)] *)
Definition get (self : SubBranch) (idnumber : string) : Res (option Obj) :=
  let node_key :=
    keypath (tree (branch self))
      [branchname (branch self); subbranchname self; idnumber] in
  match dot_data (get_node (tree (branch self)) node_key) with
  | Raise AttributeError => Ok None
  | r => r
  end.

(** The generator body shared by [get_objects] and [get_objects_force_all]:
    the list of nodes is built first, then the payloads that are not [None]
    are yielded. *)
Definition yield_objects (self : SubBranch) (ids : gset string)
    : Res (list Obj) :=
  nodes ← mapM (λ key,
      subscript (nodes_of self)
        (Py.join (self_path_delim self)
           [branchname (branch self); subbranchname self; key]))
    (elements ids);
  Ok (omap data (nodes : list Node)).

Definition get_objects (self : SubBranch) : Res (list Obj) :=
  yield_objects self (idnumbers self).

Definition get_objects_force_all (self : SubBranch) : Res (list Obj) :=
  yield_objects self (_idnumbers self).

(** [__iter__], with the overrides of the two subclasses. *)
Definition __iter__ (self : SubBranch) : Res (list Obj) :=
  match klass self with
  | KSubBranch => get_objects self
  | KSubBranchOff => get_objects_force_all self
  | KSubBranchNarrow _ => get_objects_force_all self
  end.

(** ** Search *)

(** [a, v = [...]]: unpacking into exactly two names. *)
Definition unpack2 (l : list string) : Res (string * string) :=
  match l with
  | [a; v] => Ok (a, v)
  | _ => Raise ValueError
  end.

(** [val.lower()]: only strings have the method. *)
Definition dot_lower (val : Value) : Res string :=
  match val with
  | VAtom (AStr s) => Ok (Py.lower s)
  | _ => Raise AttributeError
  end.

(** The body of the loop of [find_all]: does [obj] go into [ret]? *)
Definition find_all_test (a v : string) (obj : Obj) : Res bool :=
  val ← getattr obj a;
  if truthy val then
    low ← dot_lower val;
    Ok (Py.startswith low (Py.lower v))
  else Ok false.

Fixpoint filterM {A : Type} (f : A → Res bool) (l : list A) : Res (list A) :=
  match l with
  | [] => Ok []
  | x :: l' =>
      b ← f x;
      ret ← filterM f l';
      Ok (if b : bool then x :: ret else ret)
  end.

(** [find_all(search_string)]; Python's [None] is [None]. *)
Definition find_all (self : SubBranch) (search_string : string)
    : Res (option (list Obj)) :=
  '(a, v) ← unpack2 (map Py.strip (Py.split ":" search_string));
  objs ← get_objects self;
  ret ← filterM (find_all_test a v) objs;
  Ok (match ret with [] => None | _ => Some ret end).

(** ** Making objects *)

(** [make(idnumber, **kwargs)]: the result and the updated [self]. *)
Definition make (self : SubBranch) (idnumber : string) (kwargs : Attrs)
    : Res (option Obj * SubBranch) :=
  let self := emit self (EvMake idnumber kwargs) in
  match new (tree (branch self)) (branchname (branch self))
          (subbranchname self) idnumber kwargs with
  | Ok (obj, nodes) => Ok (Some obj, set_nodes self nodes)
  | Raise Duplicated =>
      existing ← get self idnumber;
      let self := emit self (EvResolve existing kwargs) in
      '(ret, nodes) ← resolve_duplicate (importer self) existing kwargs
                        (nodes_of self);
      Ok (ret, set_nodes self nodes)
  | Raise e => Raise e
  end.

(** ** The import pipeline *)

(** [len([1 for k in kwargs.keys() if isinstance(kwargs[k], (list, set))]) > 0] *)
Definition has_list_value (kwargs : Attrs) : bool :=
  (0 <? length (filter (λ kv, is_list_or_set kv.2) (map_to_list kwargs)))%nat.

(** An identifier is a string: the key path is joined from strings, and
    [str.join] rejects anything else. *)
Definition as_identifier (v : Value) : Res string :=
  match v with
  | VAtom (AStr s) => Ok s
  | _ => Raise TypeError
  end.

(** [self._temp[idnumber].append(kwargs)] on the [defaultdict(list)]. *)
Fixpoint temp_append (tmp : list (string * list Attrs)) (idnumber : string)
    (kwargs : Attrs) : list (string * list Attrs) :=
  match tmp with
  | [] => [(idnumber, [kwargs])]
  | (k, l) :: tmp' =>
      if decide (k = idnumber) then (k, (l ++ [kwargs])%list) :: tmp'
      else (k, l) :: temp_append tmp' idnumber kwargs
  end.

(** The [if not 'idnumber' in kwargs: ... else: ...] of [process_kwargs]:
    the identifier, the mapping without it, and [self] with its counter. *)
Definition take_idnumber (self : SubBranch) (kwargs : Attrs)
    : Res (string * Attrs * SubBranch) :=
  match kwargs !! "idnumber" with
  | None =>
      Ok (Py.str (_index self), kwargs, set_index self (_index self + 1))
  | Some v =>
      idnumber ← as_identifier v;
      Ok (idnumber, delete "idnumber" kwargs, self)
  end.

(** [process_kwargs], called with a record as keyword arguments *)
Definition process_kwargs (self : SubBranch) (kwargs_in : Attrs)
    : Res SubBranch :=
  match kwargs_preprocessor (importer self) kwargs_in with
  | None => Ok self
  | Some kwargs =>
      let has_list := has_list_value kwargs in
      '(idnumber, kwargs, self) ← take_idnumber self kwargs;
      if has_list then
        let self := emit self (EvBuffer idnumber kwargs) in
        Ok (set_temp self (temp_append (_temp self) idnumber kwargs))
      else
        '(_, self) ← make self idnumber kwargs;
        Ok self
  end.

(** [for kwargs_in in ...: self.process_kwargs], the loop over the records *)
Fixpoint drain (self : SubBranch) (records : list Attrs) : Res SubBranch :=
  match records with
  | [] => Ok self
  | kwargs_in :: records' =>
      self ← process_kwargs self kwargs_in;
      drain self records'
  end.

(** [prepared[list_key].extend(item[list_key])], after the accumulator was
    created empty when missing.  Only a list has [extend]. *)
Definition extend_list (prepared : Attrs) (list_key : string)
    (l : list Value) : Res Attrs :=
  match prepared !! list_key with
  | None => Ok (<[list_key := VList l]> prepared)
  | Some (VList acc) => Ok (<[list_key := VList (acc ++ l)%list]> prepared)
  | Some _ => Raise AttributeError
  end.

(** [prepared[set_key].update(item[set_key])], likewise.  Only a set has
    this [update]. *)
Definition update_set (prepared : Attrs) (set_key : string)
    (s : gset Atom) : Res Attrs :=
  match prepared !! set_key with
  | None => Ok (<[set_key := VSet s]> prepared)
  | Some (VSet acc) => Ok (<[set_key := VSet (acc ∪ s)]> prepared)
  | Some _ => Raise AttributeError
  end.

Fixpoint foldM {A S : Type} (f : S → A → Res S) (s : S) (l : list A) : Res S :=
  match l with
  | [] => Ok s
  | x :: l' => s' ← f s x; foldM f s' l'
  end.

(** The body of [for list_key in [k for k in item.keys() if
    isinstance(item[k], list)]], run over every pair of the item: the pairs
    that do not hold a list are passed over. *)
Definition list_step (prepared : Attrs) (kv : string * Value) : Res Attrs :=
  match kv.2 with
  | VList l => extend_list prepared kv.1 l
  | _ => Ok prepared
  end.

(** The same for the keys that hold a set. *)
Definition set_step (prepared : Attrs) (kv : string * Value) : Res Attrs :=
  match kv.2 with
  | VSet s => update_set prepared kv.1 s
  | _ => Ok prepared
  end.

(** The body of [for item in kwargs_list], up to [prepared.update(item)]:
    the list keys, then the set keys, then what is left of the item once
    these keys were deleted from it. *)
Definition merge_item (prepared item : Attrs) : Res Attrs :=
  prepared ← foldM list_step prepared (map_to_list item);
  prepared ← foldM set_step prepared (map_to_list item);
  Ok (filter (λ kv, ¬ is_list_or_set kv.2) item ∪ (prepared : Attrs)).

(** [for item in kwargs_list: ...]: [make] is the last statement of the
    body of this loop. *)
Fixpoint merge_fragments (self : SubBranch) (idnumber : string)
    (prepared : Attrs) (kwargs_list : list Attrs) : Res SubBranch :=
  match kwargs_list with
  | [] => Ok self
  | item :: kwargs_list' =>
      prepared ← merge_item prepared item;
      '(_, self) ← make self idnumber prepared;
      merge_fragments self idnumber prepared kwargs_list'
  end.

(** [for idnumber in self._temp.keys(): ...] *)
Fixpoint merge_all (self : SubBranch) (tmp : list (string * list Attrs))
    : Res SubBranch :=
  match tmp with
  | [] => Ok self
  | (idnumber, kwargs_list) :: tmp' =>
      self ← merge_fragments self idnumber ∅ kwargs_list;
      merge_all self tmp'
  end.

(** The first part of [__pos__]: the buffer and the counter are reset, then
    the records are drained, from the generator or from the context
    manager. *)
Definition pos_drain (self : SubBranch) : Res SubBranch :=
  let self := set_index (set_temp self []) 0 in
  if reader_is_generator (importer self)
  then drain self (reader (importer self))
  else drain self (reader (importer self)).

(** [__pos__]: the import run. *)
Definition __pos__ (self : SubBranch) : Res SubBranch :=
  self ← pos_drain self;
  self ← (if (0 <? length (_temp self))%nat
          then merge_all self (_temp self)
          else Ok self);
  match on_import_complete (importer self) with
  | Some hook =>
      nodes ← hook (nodes_of self);
      Ok (emit (set_nodes self nodes) EvComplete)
  | None => Ok self
  end.

(** ** Synchronisation operators *)

(** [self - other], with the override of [SubBranchOff]. *)
Definition __sub__ (self other : SubBranch) : list string :=
  match klass self with
  | KSubBranchOff => []
  | _ => elements (idnumbers self ∖ idnumbers other)
  end.

(** [self & other], with the override of [SubBranchOff]. *)
Definition __and__ (self other : SubBranch) : list string :=
  match klass self with
  | KSubBranchOff => []
  | _ => elements (idnumbers self ∩ idnumbers other)
  end.

(** ** The statements as the specification words them *)

(** The specification's reading of the identifier set: the trailing
    segments of the keys that start with the parent key path plus delimiter,
    the subbranch's own key alone being left out. *)
Definition idnumbers_as_specified (self : SubBranch) : gset string :=
  set_map (λ key, Py.last_segment (Py.split (self_path_delim self) key))
    (filter (λ key,
         Py.startswith key
           (parent_keypath self +:+ String (self_path_delim self) "") = true
         ∧ key ≠ parent_keypath self)
       (dom (nodes_of self))).

(** The specification's identifier rule for the records of a run, in read
    order: an explicit identifier is used and removed from the mapping,
    otherwise the next number of a sequence starting at [next] is taken. *)
Fixpoint identifiers_as_specified (next : nat) (records : list Attrs)
    : list (string * Attrs) :=
  match records with
  | [] => []
  | kwargs :: records' =>
      match kwargs !! "idnumber" with
      | Some (VAtom (AStr s)) =>
          (s, delete "idnumber" kwargs)
            :: identifiers_as_specified next records'
      | Some _ => []
      | None =>
          (Py.str next, kwargs) :: identifiers_as_specified (next + 1) records'
      end
  end.

(** The specification's search predicate: the named attribute is a string
    that starts with the value, letter case ignored. *)
Definition starts_with_ignoring_case (a v : string) (obj : Obj) : bool :=
  match __dict__ obj !! a with
  | Some (VAtom (AStr s)) => String.prefix (Py.lower v) (Py.lower s)
  | _ => false
  end.

(** The specification's merge of one attribute: a list is concatenated to
    the list accumulated so far, a set is unioned into the set accumulated
    so far, anything else replaces what was there. *)
Definition merged_value (old : option Value) (v : Value) : Value :=
  match v, old with
  | VList l, Some (VList acc) => VList (acc ++ l)
  | VSet s, Some (VSet acc) => VSet (acc ∪ s)
  | _, _ => v
  end.

(** The specification's merge of the fragments of one identifier, read
    under one attribute name, in arrival order. *)
Definition merged_attribute (k : string) (old : option Value)
    (fragments : list Attrs) : option Value :=
  foldl (λ acc item,
           match item !! k with
           | Some v => Some (merged_value acc v)
           | None => acc
           end) old fragments.

(** A step of a loop over the pairs of an item that touches the
    accumulator under the key of its pair only. *)
Definition keyed (g : Attrs → string * Value → Res Attrs) : Prop :=
  ∀ p kv p', g p kv = Ok p' → ∀ k, k ≠ kv.1 → p' !! k = p !! k.

(** The duplicate-resolution hook of the importer never raises. *)
Definition hook_total (imp : Importer) : Prop :=
  ∀ existing kwargs nodes,
    ∃ r, resolve_duplicate imp existing kwargs nodes = Ok r.

(** The explicit identifier of a record, if any, is a string. *)
Definition idnumber_is_str (kwargs : Attrs) : Prop :=
  ∀ v, kwargs !! "idnumber" = Some v → ∃ s, v = VStr s.

(** ** What a trace says *)

(** The calls of [make], in order. *)
Definition make_calls (tr : list Event) : list (string * Attrs) :=
  omap (λ ev, match ev with EvMake i kw => Some (i, kw) | _ => None end) tr.

(** The calls of the duplicate-resolution hook, in order. *)
Definition resolve_calls (tr : list Event) : list (option Obj * Attrs) :=
  omap (λ ev, match ev with EvResolve o kw => Some (o, kw) | _ => None end) tr.

(** The records handled while draining, each with its identifier and the
    mapping handed on: to [make] at once, or to the buffer. *)
Definition handled (tr : list Event) : list (string * Attrs) :=
  omap (λ ev, match ev with
              | EvMake i kw | EvBuffer i kw => Some (i, kw)
              | _ => None
              end) tr.

(** ** Fixtures *)

Definition person (name : string) : Obj := mkObj {[ "name" := VStr name ]}.

Definition subbranch_on (k : Klass) (nodes : list (string * Node))
    (imp : Importer) : SubBranch :=
  mkSubBranch k (mkBranch (mkTree "/" (list_to_map nodes)) "b") "s" imp [] 0 [].

(** Three people under [b/s]. *)
Definition people_nodes : list (string * Node) :=
  [("b", mkNode None); ("b/s", mkNode None);
   ("b/s/1", mkNode (Some (person "John")));
   ("b/s/2", mkNode (Some (person "Joanna")));
   ("b/s/3", mkNode (Some (person "Mark")))].
Definition people : SubBranch :=
  subbranch_on KSubBranch people_nodes DefaultImporter.

(** A child whose identifier ends with the subbranch name. *)
Definition suffix_nodes : list (string * Node) :=
  [("b", mkNode None); ("b/s", mkNode None);
   ("b/s/as", mkNode (Some (person "Ann")))].
Definition suffix_case : SubBranch :=
  subbranch_on KSubBranch suffix_nodes DefaultImporter.

(** Five identifiers in the store, two of them in the narrowed view. *)
Definition five_nodes : list (string * Node) :=
  [("b", mkNode None); ("b/s", mkNode None);
   ("b/s/1", mkNode (Some (person "P1")));
   ("b/s/2", mkNode (Some (person "P2")));
   ("b/s/3", mkNode (Some (person "P3")));
   ("b/s/7", mkNode (Some (person "P7")));
   ("b/s/9", mkNode (Some (person "P9")))].
Definition narrowed : SubBranch :=
  subbranch_on (KSubBranchNarrow ["3"; "7"]) five_nodes DefaultImporter.
Definition excluded : SubBranch :=
  subbranch_on KSubBranchOff five_nodes DefaultImporter.

(** One candidate without the attribute [name]. *)
Definition partial_nodes : list (string * Node) :=
  [("b", mkNode None); ("b/s", mkNode None);
   ("b/s/1", mkNode (Some (person "John")));
   ("b/s/2", mkNode (Some (mkObj {[ "age" := VInt 7 ]})))].
Definition partial_case : SubBranch :=
  subbranch_on KSubBranch partial_nodes DefaultImporter.

(** The three fragments for identifier 5. *)
Definition fragment1 : Attrs :=
  {[ "idnumber" := VStr "5"; "tags" := VList [VStr "a"] ]}.
Definition fragment2 : Attrs :=
  {[ "idnumber" := VStr "5"; "tags" := VList [VStr "b"];
     "name" := VStr "x" ]}.
Definition fragment3 : Attrs :=
  {[ "idnumber" := VStr "5"; "tags" := VList [VStr "c"];
     "name" := VStr "y" ]}.
Definition importer_of (records : list Attrs) : Importer :=
  mkImporter records true (λ kw, Some kw) (λ _ _ nodes, Ok (None, nodes)) None.
Definition fragments_run : SubBranch :=
  subbranch_on KSubBranch [("b", mkNode None); ("b/s", mkNode None)]
    (importer_of [fragment1; fragment2; fragment3]).

(** Three scalar-only records without identifiers, then a mixed run. *)
Definition scalar_records : list Attrs :=
  [ {[ "name" := VStr "u" ]}; {[ "name" := VStr "v" ]};
    {[ "name" := VStr "w" ]} ].
Definition scalars_run : SubBranch :=
  subbranch_on KSubBranch [("b", mkNode None); ("b/s", mkNode None)]
    (importer_of scalar_records).
Definition mixed_records : list Attrs :=
  [ {[ "name" := VStr "u" ]};
    {[ "idnumber" := VStr "k9"; "name" := VStr "v" ]};
    {[ "tags" := VList [VStr "t"] ]} ].
Definition mixed_run : SubBranch :=
  subbranch_on KSubBranch [("b", mkNode None); ("b/s", mkNode None)]
    (importer_of mixed_records).

(** ** Further notions used by the statements *)

(** [c in s] *)
Fixpoint contains (c : ascii) (s : string) : bool :=
  match s with
  | "" => false
  | String a s' => if decide (a = c) then true else contains c s'
  end.

(** [s.count(c)] *)
Fixpoint count_char (c : ascii) (s : string) : nat :=
  match s with
  | "" => 0
  | String a s' => (if decide (a = c) then 1 else 0) + count_char c s'
  end.

(** Every key stored under the prefix of the subbranch is a direct child:
    the prefix followed by one segment. *)
Definition flat_under (self : SubBranch) : Prop :=
  ∀ key, is_Some (nodes_of self !! key) →
    Py.startswith key
      (parent_keypath self +:+ String (self_path_delim self) "") = true →
    ∃ x, contains (self_path_delim self) x = false ∧ key = object_key self x.

(** A store with a key two segments below the subbranch. *)
Definition nested_nodes : list (string * Node) :=
  [("b", mkNode None); ("b/s", mkNode None);
   ("b/s/1", mkNode (Some (person "John")));
   ("b/s/x/y", mkNode (Some (person "Deep")))].
Definition nested_case : SubBranch :=
  subbranch_on KSubBranch nested_nodes DefaultImporter.

(** A view narrowed to an identifier the store does not hold. *)
Definition narrowed_unknown : SubBranch :=
  subbranch_on (KSubBranchNarrow ["3"; "8"]) five_nodes DefaultImporter.

(** A candidate whose attribute [name] is a number. *)
Definition numbered_nodes : list (string * Node) :=
  [("b", mkNode None); ("b/s", mkNode None);
   ("b/s/1", mkNode (Some (person "John")));
   ("b/s/2", mkNode (Some (mkObj {[ "name" := VInt 7 ]})))].
Definition numbered_case : SubBranch :=
  subbranch_on KSubBranch numbered_nodes DefaultImporter.

(** A subbranch without children. *)
Definition childless : SubBranch :=
  subbranch_on KSubBranch [("b", mkNode None); ("b/s", mkNode None)]
    DefaultImporter.

(** The events of a trace other than the call of the completion hook. *)
Definition no_completion (tr : list Event) : Prop :=
  Forall (λ ev, ev ≠ EvComplete) tr.

(** A run with a completion hook that leaves the store alone. *)
Definition completing_run : SubBranch :=
  subbranch_on KSubBranch [("b", mkNode None); ("b/s", mkNode None)]
    (mkImporter scalar_records false (λ kw, Some kw)
       (λ _ _ nodes, Ok (None, nodes)) (Some (λ nodes, Ok nodes))).

(** [self._temp[idnumber]], read without creating the entry: the fragments
    buffered for an identifier. *)
Fixpoint fragments_of (tmp : list (string * list Attrs)) (idnumber : string)
    : list Attrs :=
  match tmp with
  | [] => []
  | (k, l) :: tmp' =>
      if decide (k = idnumber) then l else fragments_of tmp' idnumber
  end.

(** The record holds no explicit identifier. *)
Definition lacks_idnumber (kwargs : Attrs) : bool :=
  match kwargs !! "idnumber" with None => true | Some _ => false end.

(** A run of three records, the first and the last for the same
    identifier and carrying lists. *)
Definition grouped_records : list Attrs :=
  [ {[ "idnumber" := VStr "k"; "tags" := VList [VStr "a"] ]};
    {[ "name" := VStr "u" ]};
    {[ "idnumber" := VStr "k"; "tags" := VList [VStr "b"] ]} ].
Definition grouped_run : SubBranch :=
  subbranch_on KSubBranch [("b", mkNode None); ("b/s", mkNode None)]
    (importer_of grouped_records).

(** Of the records of a run, with their identifiers: those that carry a
    list or a set, those that do not, and the mappings of one identifier. *)
Definition buffered_pairs (l : list (string * Attrs)) : list (string * Attrs) :=
  filter (λ p, has_list_value p.2 = true) l.
Definition made_pairs (l : list (string * Attrs)) : list (string * Attrs) :=
  filter (λ p, has_list_value p.2 = false) l.
Definition for_identifier (idnumber : string) (l : list (string * Attrs))
    : list Attrs :=
  (filter (λ p, p.1 = idnumber) l).*2.

(** The hooks of the importer leave every stored node as it is: they may
    add nodes, not replace or remove one. *)
Definition hooks_keep_nodes (imp : Importer) : Prop :=
  (∀ existing kwargs nodes ret nodes',
     resolve_duplicate imp existing kwargs nodes = Ok (ret, nodes') →
     nodes ⊆ nodes') ∧
  (∀ hook nodes nodes',
     on_import_complete imp = Some hook → hook nodes = Ok nodes' →
     nodes ⊆ nodes').

(** Two fragments for one identifier: [tags] is a string in the first and
    a list in the second. *)
Definition clash_records : list Attrs :=
  [ {[ "idnumber" := VStr "k"; "tags" := VStr "x";
       "more" := VList [VStr "m"] ]};
    {[ "idnumber" := VStr "k"; "tags" := VList [VStr "a"] ]} ].
Definition clash_run : SubBranch :=
  subbranch_on KSubBranch [("b", mkNode None); ("b/s", mkNode None)]
    (importer_of clash_records).

(** A run into a subbranch that already holds objects. *)
Definition people_run : SubBranch :=
  subbranch_on KSubBranch people_nodes
    (importer_of [ {[ "idnumber" := VStr "2"; "name" := VStr "Jo" ]};
                   {[ "name" := VStr "New" ]} ]).

(** [self'] is the subbranch [self] (same class, names, delimiter and
    importer) over a store that holds every node [self] holds. *)
Definition grows (self self' : SubBranch) : Prop :=
  klass self' = klass self ∧
  branchname (branch self') = branchname (branch self) ∧
  subbranchname self' = subbranchname self ∧
  self_path_delim self' = self_path_delim self ∧
  importer self' = importer self ∧
  nodes_of self ⊆ nodes_of self'.




(** * Properties *)

(** ** The identifier set *)

Section Identifiers.
Implicit Types (self other : SubBranch) (x key : string).

Lemma elem_of__idnumbers self x :
  x ∈ _idnumbers self ↔
  ∃ key, key ∈ dom (nodes_of self) ∧ is_child_key self key = true ∧
         x = Py.last_segment (Py.split (self_path_delim self) key).
Proof.
  unfold _idnumbers. rewrite elem_of_map. split.
  - intros (key & -> & [Hc Hd]%elem_of_filter). eauto.
  - intros (key & Hd & Hc & ->). exists key. split; [done|].
    by apply elem_of_filter.
Qed.

Lemma is_child_key_spec self key :
  is_child_key self key = true ↔
  Py.startswith key
    (parent_keypath self +:+ String (self_path_delim self) "") = true ∧
  Py.endswith key (subbranchname self) = false.
Proof.
  unfold is_child_key. rewrite andb_true_iff, negb_true_iff. tauto.
Qed.

Lemma idnumbers_base self :
  klass self = KSubBranch → idnumbers self = _idnumbers self.
Proof. unfold idnumbers. by intros ->. Qed.

End Identifiers.

(** What the scan computes.  Whatever the node dictionary currently holds,
    [idnumbers] of a base subbranch is computed from it: it is the set of
    trailing segments of the keys that start with the parent key path plus
    delimiter and do not end with the subbranch name. *)
Theorem idnumbers_follow_the_store (self : SubBranch)
    (nodes : gmap string Node) (x : string) :
  klass self = KSubBranch →
  (x ∈ idnumbers (set_nodes self nodes) ↔
   ∃ key, is_Some (nodes !! key) ∧
     Py.startswith key
       (parent_keypath self +:+ String (self_path_delim self) "") = true ∧
     Py.endswith key (subbranchname self) = false ∧
     x = Py.last_segment (Py.split (self_path_delim self) key)).
Proof.
  intros Hk. rewrite idnumbers_base by done.
  rewrite elem_of__idnumbers. split.
  - intros (key & Hd%elem_of_dom & [Hs He]%is_child_key_spec & ->).
    exists key. done.
  - intros (key & Hd & Hs & He & ->). exists key.
    split; [by apply elem_of_dom|]. split; [|done].
    apply is_child_key_spec. done.
Qed.

Lemma idnumbers_follow_the_store_witness :
  "7" ∈ idnumbers (set_nodes people (list_to_map five_nodes)).
Proof.
  apply (idnumbers_follow_the_store people (list_to_map five_nodes) "7");
    [reflexivity|].
  exists "b/s/7". repeat split; try reflexivity.
  vm_compute. eauto.
Defined.

(** C2.  The scan of the code is not the set of the claim: the suffix test
    hides a child.  In the store of [suffix_case] the key [b/s/as] holds an
    object, starts with [b/s/] and is not the subbranch's own key [b/s], so
    its segment [as] belongs to the set the claim describes, and the prefix
    test alone already leaves the own key out.  The code leaves [as] out as
    well, because the key ends with the subbranch name, although [get] reads
    the object under that identifier and [make] finds it in place. *)
Lemma idnumbers_drop_a_child :
  nodes_of suffix_case !! "b/s/as" = Some (mkNode (Some (person "Ann"))) ∧
  Py.startswith "b/s/as" (parent_keypath suffix_case +:+ "/") = true ∧
  "b/s/as" ≠ parent_keypath suffix_case ∧
  Py.startswith (parent_keypath suffix_case)
    (parent_keypath suffix_case +:+ "/") = false ∧
  Py.last_segment (Py.split "/" "b/s/as") = "as" ∧
  idnumbers_as_specified suffix_case = {["as"]} ∧
  idnumbers suffix_case = ∅ ∧
  get suffix_case "as" = Ok (Some (person "Ann")) ∧
  resolve_calls (match make suffix_case "as" (__dict__ (person "Bea")) with
                 | Ok (_, self') => trace self'
                 | Raise _ => []
                 end) = [(Some (person "Ann"), __dict__ (person "Bea"))].
Proof.
  repeat split; try (vm_compute; reflexivity).
  vm_compute. discriminate.
Qed.

(** ** Reading objects *)

Section Reading.
Implicit Types (self : SubBranch) (ids : gset string) (o : Obj).

Lemma get_eq self idnumber :
  get self idnumber =
  Ok (match nodes_of self !! object_key self idnumber with
      | Some node => data node
      | None => None
      end).
Proof.
  unfold get, get_node, nodes_of, object_key.
  by destruct (_nodes (tree (branch self)) !! _).
Qed.

Lemma subscript_Some (nodes : gmap string Node) (key : string) (n : Node) :
  nodes !! key = Some n → subscript nodes key = Ok n.
Proof. unfold subscript. by intros ->. Qed.

Lemma mapM_subscript_ok (nodes : gmap string Node) (f : string → string)
    (l : list string) :
  (∀ x, x ∈ l → is_Some (nodes !! f x)) →
  ∃ ns, mapM (λ x, subscript nodes (f x)) l = Ok ns ∧
        ∀ n, n ∈ ns ↔ ∃ x, x ∈ l ∧ nodes !! f x = Some n.
Proof.
  induction l as [|x l IH]; intros Hall.
  - exists []. split; [done|]. intros n. split.
    + by intros ?%elem_of_nil.
    + by intros (x & ?%elem_of_nil & _).
  - destruct (Hall x) as [n Hn]; [by left|].
    destruct IH as (ns & Hns & Hin).
    { intros y Hy. apply Hall. by right. }
    exists (n :: ns). cbn [mapM]. rewrite (subscript_Some _ _ _ Hn).
    cbn. rewrite Hns. cbn. split; [done|]. intros n'.
    rewrite elem_of_cons, Hin. split.
    + intros [-> | (y & Hy & Hl)].
      * exists x. split; [by left | done].
      * exists y. split; [by right | done].
    + intros (y & [-> | Hy]%elem_of_cons & Hl).
      * left. congruence.
      * right. eauto.
Qed.

(** When every identifier has a node, the generator yields exactly the
    payloads that [get] finds for these identifiers. *)
Lemma yield_objects_ok self ids :
  (∀ x, x ∈ ids → is_Some (nodes_of self !! object_key self x)) →
  ∃ objs, yield_objects self ids = Ok objs ∧
          ∀ o, o ∈ objs ↔ ∃ x, x ∈ ids ∧ get self x = Ok (Some o).
Proof.
  intros Hall.
  destruct (mapM_subscript_ok (nodes_of self) (object_key self)
              (elements ids)) as (ns & Hns & Hin).
  { intros x Hx%elem_of_elements. by apply Hall. }
  exists (omap data ns). split.
  - unfold yield_objects. unfold object_key, keypath in Hns.
    unfold self_path_delim. rewrite Hns. done.
  - intros o. rewrite list_elem_of_omap. split.
    + intros (n & (x & Hx%elem_of_elements & Hl)%Hin & Hd).
      exists x. split; [done|]. rewrite get_eq, Hl. by f_equal.
    + intros (x & Hx & Hg). rewrite get_eq in Hg.
      destruct (nodes_of self !! object_key self x) as [n|] eqn:Hl;
        [|congruence].
      exists n. split; [|congruence]. apply Hin. exists x.
      split; [by apply elem_of_elements | done].
Qed.

End Reading.

(** C7.  [get] never raises: for an identifier with no node at its key path
    it returns [None], and for one whose node exists it returns the node's
    payload. *)
Theorem get_total (self : SubBranch) (idnumber : string) :
  (nodes_of self !! object_key self idnumber = None →
   get self idnumber = Ok None) ∧
  (∀ node, nodes_of self !! object_key self idnumber = Some node →
   get self idnumber = Ok (data node)) ∧
  (∃ r, get self idnumber = Ok r).
Proof.
  rewrite get_eq. split; [by intros ->|]. split; [by intros node ->|]. eauto.
Qed.

Lemma get_total_witness :
  get people "missing-id" = Ok None ∧
  get people "2" = Ok (Some (person "Joanna")).
Proof.
  split.
  - apply (proj1 (get_total people "missing-id")). vm_compute. reflexivity.
  - apply (proj1 (proj2 (get_total people "2"))
             (mkNode (Some (person "Joanna")))).
    vm_compute. reflexivity.
Defined.

(** C3 (amended).  A narrowed subbranch wrapping [C] has [idnumbers] equal
    to [set(C)] whatever the store holds; [get_objects], the read path of
    [find_all], yields exactly the payloads stored for the identifiers of
    [C] when each of them has a node; iteration goes through
    [get_objects_force_all], and so yields the payloads stored for the
    identifiers that the scan of the store finds. *)
Theorem narrow_reads (self : SubBranch) (C : list string) :
  klass self = KSubBranchNarrow C →
  (∀ nodes, idnumbers (set_nodes self nodes) = list_to_set C) ∧
  ((∀ x, x ∈ C → is_Some (nodes_of self !! object_key self x)) →
   ∃ objs, get_objects self = Ok objs ∧
           ∀ o, o ∈ objs ↔ ∃ x, x ∈ C ∧ get self x = Ok (Some o)) ∧
  __iter__ self = get_objects_force_all self ∧
  ((∀ x, x ∈ _idnumbers self →
         is_Some (nodes_of self !! object_key self x)) →
   ∃ objs, __iter__ self = Ok objs ∧
           ∀ o, o ∈ objs ↔
                ∃ x, x ∈ _idnumbers self ∧ get self x = Ok (Some o)).
Proof.
  intros Hk.
  assert (Hiter : __iter__ self = get_objects_force_all self)
    by (unfold __iter__; by rewrite Hk).
  split; [|split; [|split]].
  - intros nodes. unfold idnumbers. simpl. by rewrite Hk.
  - intros Hall. unfold get_objects, idnumbers. rewrite Hk.
    destruct (yield_objects_ok self (list_to_set C)) as (objs & Ho & Hin).
    { intros x Hx%elem_of_list_to_set. by apply Hall. }
    exists objs. split; [done|]. intros o. rewrite Hin.
    by setoid_rewrite elem_of_list_to_set.
  - done.
  - rewrite Hiter. apply yield_objects_ok.
Qed.

Lemma narrow_reads_witness :
  idnumbers narrowed = {["3"; "7"]} ∧
  ∃ objs, get_objects narrowed = Ok objs ∧
          ∀ o, o ∈ objs ↔
               ∃ x, x ∈ ["3"; "7"] ∧ get narrowed x = Ok (Some o).
Proof.
  destruct (narrow_reads narrowed ["3"; "7"] eq_refl) as (H1 & H2 & _ & _).
  split.
  - vm_compute. reflexivity.
  - apply H2. intros x Hx.
    apply elem_of_cons in Hx as [-> | Hx]; [vm_compute; eauto|].
    apply elem_of_cons in Hx as [-> | Hx]; [vm_compute; eauto|].
    by apply elem_of_nil in Hx.
Defined.

(** C3, as worded, fails: iterating the subbranch narrowed to 3 and 7 over a
    store that also holds 1, 2 and 9 yields all five payloads, and [get]
    answers for an identifier outside the collection. *)
Lemma narrow_iteration_is_not_narrowed :
  idnumbers narrowed = {["3"; "7"]} ∧
  __iter__ narrowed =
    Ok [person "P7"; person "P3"; person "P9"; person "P1"; person "P2"] ∧
  get narrowed "9" = Ok (Some (person "P9")).
Proof. repeat split; vm_compute; reflexivity. Qed.

(** ** Synchronisation operators *)

(** C4.  For base subbranches the identifiers yielded by [A - B], [B - A]
    and [A & B] are pairwise disjoint and together make up the identifiers
    of [A] and of [B]; [A - A] yields nothing and [A & A] yields the
    identifiers of [A]. *)
Theorem difference_intersection_partition (A B : SubBranch) :
  klass A = KSubBranch → klass B = KSubBranch →
  let a_b : gset string := list_to_set (__sub__ A B) in
  let b_a : gset string := list_to_set (__sub__ B A) in
  let ab : gset string := list_to_set (__and__ A B) in
  a_b ## b_a ∧ a_b ## ab ∧ b_a ## ab ∧
  a_b ∪ b_a ∪ ab = idnumbers A ∪ idnumbers B ∧
  __sub__ A A = [] ∧
  list_to_set (__and__ A A) = idnumbers A.
Proof.
  intros HA HB. unfold __sub__, __and__. rewrite HA, HB. cbn zeta.
  rewrite !list_to_set_elements_L, difference_diag_L, elements_empty.
  rewrite (idemp_L (∩) (idnumbers A)).
  repeat split.
  - intros x [? ?]%elem_of_difference [? ?]%elem_of_difference. done.
  - intros x [? ?]%elem_of_difference [? ?]%elem_of_intersection. done.
  - intros x [? ?]%elem_of_difference [? ?]%elem_of_intersection. done.
  - apply set_eq. intros x.
    rewrite !elem_of_union, !elem_of_difference, elem_of_intersection.
    destruct (decide (x ∈ idnumbers A)), (decide (x ∈ idnumbers B)); tauto.
Qed.

Lemma difference_intersection_partition_witness :
  list_to_set (__sub__ people suffix_case)
    ∪ list_to_set (__sub__ suffix_case people)
    ∪ list_to_set (__and__ people suffix_case)
  = idnumbers people ∪ idnumbers suffix_case.
Proof.
  exact (proj1 (proj2 (proj2 (proj2
    (difference_intersection_partition people suffix_case eq_refl eq_refl))))).
Defined.

(** C5.  The two operators of an excluded subbranch yield the empty
    sequence, whatever the other subbranch and whatever the stores hold. *)
Theorem excluded_operators_empty (X other : SubBranch) :
  klass X = KSubBranchOff →
  ∀ nodes nodes',
    __sub__ (set_nodes X nodes) (set_nodes other nodes') = [] ∧
    __and__ (set_nodes X nodes) (set_nodes other nodes') = [].
Proof. intros HX nodes nodes'. unfold __sub__, __and__. simpl. by rewrite HX. Qed.

Lemma excluded_operators_empty_witness :
  __sub__ (set_nodes excluded (list_to_map people_nodes))
          (set_nodes people ∅) = [] ∧
  __and__ (set_nodes excluded (list_to_map people_nodes))
          (set_nodes people ∅) = [].
Proof.
  exact (excluded_operators_empty excluded people eq_refl
           (list_to_map people_nodes) ∅).
Defined.

(** ** Making objects *)

(** [make], by cases on the node dictionary. *)
Lemma make_eq (self : SubBranch) (idnumber : string) (kwargs : Attrs) :
  make self idnumber kwargs =
    match nodes_of self !! object_key self idnumber with
    | None =>
        Ok (Some (mkObj kwargs),
            set_nodes (emit self (EvMake idnumber kwargs))
              (<[object_key self idnumber := mkNode (Some (mkObj kwargs))]>
                 (nodes_of self)))
    | Some node =>
        match resolve_duplicate (importer self) (data node) kwargs
                (nodes_of self) with
        | Ok (ret, nodes) =>
            Ok (ret,
                set_nodes
                  (emit (emit self (EvMake idnumber kwargs))
                     (EvResolve (data node) kwargs))
                  nodes)
        | Raise e => Raise e
        end
    end.
Proof.
  unfold make, new. cbn [emit tree branch branchname subbranchname].
  change (_nodes (tree (branch self)) !!
            keypath (tree (branch self))
              [branchname (branch self); subbranchname self; idnumber])
    with (nodes_of self !! object_key self idnumber).
  destruct (nodes_of self !! object_key self idnumber) as [node|] eqn:Hnode;
    [|done].
  rewrite get_eq.
  change (nodes_of (emit self (EvMake idnumber kwargs)) !!
            object_key (emit self (EvMake idnumber kwargs)) idnumber)
    with (nodes_of self !! object_key self idnumber).
  rewrite Hnode. cbn.
  by destruct (resolve_duplicate _ _ _ _) as [[ret nodes]|e].
Qed.

(** C6.  When a node already exists at the key path of the identifier,
    [make] calls the duplicate-resolution hook once, with the existing
    payload and the new attributes, and returns what the hook returns. *)
Theorem make_duplicate_delegates (self : SubBranch) (idnumber : string)
    (kwargs : Attrs) (node : Node) :
  nodes_of self !! object_key self idnumber = Some node →
  make self idnumber kwargs =
    match resolve_duplicate (importer self) (data node) kwargs
            (nodes_of self) with
    | Ok (ret, nodes) =>
        Ok (ret,
            set_nodes
              (emit (emit self (EvMake idnumber kwargs))
                 (EvResolve (data node) kwargs))
              nodes)
    | Raise e => Raise e
    end
  ∧ ∀ ret self',
      make self idnumber kwargs = Ok (ret, self') →
      resolve_calls (trace self') =
        (resolve_calls (trace self) ++ [(data node, kwargs)])%list ∧
      resolve_duplicate (importer self) (data node) kwargs (nodes_of self) =
        Ok (ret, nodes_of self').
Proof.
  intros Hnode. rewrite make_eq, Hnode. split; [done|]. intros ret self'.
  destruct (resolve_duplicate _ _ _ _) as [[ret0 nodes]|e]; [|done].
  intros [= <- <-]. split; [|done].
  cbn. unfold resolve_calls. rewrite <- app_assoc, omap_app. cbn.
  done.
Qed.

Lemma make_duplicate_delegates_witness :
  make people "2" {[ "name" := VStr "Jo" ]} =
    Ok (None,
        set_nodes
          (emit (emit people (EvMake "2" {[ "name" := VStr "Jo" ]}))
             (EvResolve (Some (person "Joanna")) {[ "name" := VStr "Jo" ]}))
          (nodes_of people)).
Proof.
  apply (proj1 (make_duplicate_delegates people "2" {[ "name" := VStr "Jo" ]}
                  (mkNode (Some (person "Joanna"))) eq_refl)).
Defined.

(** ** Search *)

Section Search.
Implicit Types (self : SubBranch) (o : Obj) (a v q : string).

Lemma lower_empty v : Py.lower v = "" → v = "".
Proof. by destruct v. Qed.

(** The test of the loop raises nothing but [AttributeError]. *)
Lemma find_all_test_raises a v o e :
  find_all_test a v o = Raise e → e = AttributeError.
Proof.
  unfold find_all_test, getattr.
  destruct (__dict__ o !! a) as [val|]; cbn; [|congruence].
  destruct (truthy val); [|done].
  destruct val as [[| |s]| |]; cbn; congruence.
Qed.

(** A falsy value is a non-match. *)
Lemma find_all_test_falsy a v o val :
  getattr o a = Ok val → truthy val = false → find_all_test a v o = Ok false.
Proof. unfold find_all_test. intros -> Hf. cbn. by rewrite Hf. Qed.

(** On a string or a falsy value the test is the prefix match. *)
Lemma find_all_test_string a v o val :
  v ≠ "" →
  getattr o a = Ok val →
  truthy val = false ∨ (∃ s, val = VStr s) →
  find_all_test a v o = Ok (starts_with_ignoring_case a v o).
Proof.
  intros Hv Hg Hval. unfold starts_with_ignoring_case.
  unfold find_all_test. rewrite Hg. unfold getattr in Hg.
  destruct (__dict__ o !! a) as [val'|]; [|done].
  injection Hg as ->. cbn.
  destruct (truthy val) eqn:Ht.
  - destruct Hval as [|[s ->]]; [congruence|]. reflexivity.
  - destruct val as [[| |s]| |]; try done.
    cbn in Ht. apply negb_false_iff in Ht. apply String.eqb_eq in Ht as ->. cbn.
    destruct (Py.lower v) eqn:Hl; [|done].
    by apply lower_empty in Hl.
Qed.

Lemma filterM_pure {A} (f : A → Res bool) (p : A → bool) (l : list A) :
  (∀ x, x ∈ l → f x = Ok (p x)) →
  filterM f l = Ok (filter (λ x, p x) l).
Proof.
  induction l as [|x l IH]; intros Hall; [done|].
  rewrite filter_cons. cbn [filterM].
  rewrite Hall by (by left).
  rewrite IH by (intros y Hy; apply Hall; by right).
  by destruct (p x).
Qed.

Lemma filterM_raises {A} (f : A → Res bool) (e : exn) (l : list A) x :
  (∀ y e', f y = Raise e' → e' = e) →
  x ∈ l → f x = Raise e → filterM f l = Raise e.
Proof.
  intros Honly. induction l as [|y l IH]; intros Hin Hx.
  - by apply elem_of_nil in Hin.
  - cbn [filterM]. destruct (f y) as [b|e'] eqn:Hy; cbn.
    + apply elem_of_cons in Hin as [-> | Hin]; [congruence|].
      by rewrite IH.
    + by rewrite (Honly _ _ Hy).
Qed.

End Search.

(** With a value that is not empty, and candidates that carry the attribute
    as a string or as a falsy value, the result is the one of the plain
    prefix match, letter case ignored. *)
Lemma find_all_prefix_match (self : SubBranch) (q a v : string)
    (objs : list Obj) :
  unpack2 (map Py.strip (Py.split ":" q)) = Ok (a, v) →
  v ≠ "" →
  get_objects self = Ok objs →
  (∀ o, o ∈ objs →
        ∃ val, getattr o a = Ok val ∧
               (truthy val = false ∨ ∃ s, val = VStr s)) →
  find_all self q =
    Ok (match filter (λ o, starts_with_ignoring_case a v o) objs with
        | [] => None
        | ret => Some ret
        end)
  ∧ ((∀ o, o ∈ objs → starts_with_ignoring_case a v o = false) →
     find_all self q = Ok None).
Proof.
  intros Hq Hv Hobjs Hattr.
  assert (Hfind : find_all self q =
    Ok (match filter (λ o, starts_with_ignoring_case a v o) objs with
        | [] => None
        | ret => Some ret
        end)).
  { unfold find_all. rewrite Hq. cbn. rewrite Hobjs. cbn.
    rewrite (filterM_pure _ (starts_with_ignoring_case a v)).
    - cbn. by destruct (filter _ objs).
    - intros o Ho. destruct (Hattr o Ho) as (val & Hg & Hval).
      by apply (find_all_test_string a v o val). }
  split; [done|]. intros Hnone. rewrite Hfind.
  destruct (filter _ objs) as [|o ret] eqn:Hf; [done|].
  assert (Ho : o ∈ filter (λ o, starts_with_ignoring_case a v o) objs)
    by (rewrite Hf; by left).
  apply list_elem_of_filter in Ho as [Hp Ho].
  rewrite (Hnone o Ho) in Hp. done.
Qed.

(** Neither a substring nor letter case nor equality is what is matched. *)
Example find_all_people :
  find_all people "name: oh" = Ok None ∧
  find_all people "name: JOA" = Ok (Some [person "Joanna"]) ∧
  find_all people "name: mark twain" = Ok None ∧
  find_all people "name" = Raise ValueError.
Proof. repeat split; vm_compute; reflexivity. Qed.

Section TruthySearch.
Implicit Types (self : SubBranch) (o : Obj) (a v q : string).



End TruthySearch.





(** C9 (amended).  A candidate whose named attribute is present and falsy is
    skipped as a non-match; a candidate on which the attribute is absent
    makes [getattr] raise [AttributeError], which [find_all] lets
    through. *)
Theorem find_all_absent_attribute (self : SubBranch) (q a v : string)
    (objs : list Obj) :
  unpack2 (map Py.strip (Py.split ":" q)) = Ok (a, v) →
  get_objects self = Ok objs →
  (∀ o val, getattr o a = Ok val → truthy val = false →
            find_all_test a v o = Ok false) ∧
  ((∃ o, o ∈ objs ∧ __dict__ o !! a = None) →
   find_all self q = Raise AttributeError).
Proof.
  intros Hq Hobjs. split.
  - intros o val. apply find_all_test_falsy.
  - intros (o & Ho & Habs). unfold find_all. rewrite Hq. cbn.
    rewrite Hobjs. cbn.
    rewrite (filterM_raises _ AttributeError objs o); [done| |done|].
    + intros y e'. apply find_all_test_raises.
    + unfold find_all_test, getattr. by rewrite Habs.
Qed.

Lemma find_all_absent_attribute_witness :
  find_all partial_case "name: jo" = Raise AttributeError.
Proof.
  refine (proj2 (find_all_absent_attribute partial_case "name: jo" "name" "jo"
            [person "John"; mkObj {[ "age" := VInt 7 ]}] _ _) _).
  - vm_compute. reflexivity.
  - vm_compute. reflexivity.
  - exists (mkObj {[ "age" := VInt 7 ]}). split.
    + right. left.
    + vm_compute. reflexivity.
Defined.

(** C9, as worded, fails: with one candidate lacking [name], the search does
    not skip it but raises. *)
Lemma find_all_raises_on_absent_attribute :
  get_objects partial_case =
    Ok [person "John"; mkObj {[ "age" := VInt 7 ]}] ∧
  getattr (mkObj {[ "age" := VInt 7 ]}) "name" = Raise AttributeError ∧
  find_all partial_case "name: jo" = Raise AttributeError.
Proof. repeat split; vm_compute; reflexivity. Qed.

(** ** The import pipeline *)

Section Pipeline.
Implicit Types (self : SubBranch) (kwargs : Attrs) (idnumber : string).

Lemma handled_app tr1 tr2 :
  handled (tr1 ++ tr2) = (handled tr1 ++ handled tr2)%list.
Proof. apply omap_app. Qed.

Lemma make_calls_app tr1 tr2 :
  make_calls (tr1 ++ tr2) = (make_calls tr1 ++ make_calls tr2)%list.
Proof. apply omap_app. Qed.

(** What [make] leaves alone, and what it adds to the trace. *)
Lemma make_frame self idnumber kwargs ret self' :
  make self idnumber kwargs = Ok (ret, self') →
  importer self' = importer self ∧ _index self' = _index self ∧
  _temp self' = _temp self ∧
  handled (trace self') = (handled (trace self) ++ [(idnumber, kwargs)])%list ∧
  make_calls (trace self') =
    (make_calls (trace self) ++ [(idnumber, kwargs)])%list.
Proof.
  unfold make.
  destruct (new _ _ _ _ _) as [[obj nodes]|e].
  - intros [= <- <-]. cbn. rewrite handled_app, make_calls_app. done.
  - destruct e; try done. rewrite get_eq. cbn.
    destruct (resolve_duplicate _ _ _ _) as [[ret0 nodes]|e]; [|done].
    cbn. intros [= <- <-]. cbn.
    rewrite !handled_app, !make_calls_app. cbn. by rewrite !app_nil_r.
Qed.

Lemma identifiers_as_specified_explicit next kwargs records s :
  kwargs !! "idnumber" = Some (VStr s) →
  identifiers_as_specified next (kwargs :: records) =
    (s, delete "idnumber" kwargs) :: identifiers_as_specified next records.
Proof. intros H. cbn. by rewrite H. Qed.

Lemma identifiers_as_specified_fresh next kwargs records :
  kwargs !! "idnumber" = None →
  identifiers_as_specified next (kwargs :: records) =
    (Py.str next, kwargs) :: identifiers_as_specified (next + 1) records.
Proof. intros H. cbn. by rewrite H. Qed.

(** One record: the identifier rule of the specification, step by step. *)
Lemma process_kwargs_handled self kwargs_in self' :
  process_kwargs self kwargs_in = Ok self' →
  importer self' = importer self ∧
  ∀ records,
    (handled (trace self') ++ identifiers_as_specified (_index self') records)%list
    = (handled (trace self) ++
       identifiers_as_specified (_index self)
         (option_list (kwargs_preprocessor (importer self) kwargs_in)
            ++ records))%list.
Proof.
  unfold process_kwargs.
  destruct (kwargs_preprocessor (importer self) kwargs_in) as [kwargs|];
    [|by intros [= <-]].
  generalize (has_list_value kwargs). intros has_list.
  unfold take_idnumber. cbn [option_list app].
  destruct (kwargs !! "idnumber") as [v|] eqn:Hid.
  - destruct v as [[| |s]| |]; try done. cbn -[identifiers_as_specified]. destruct has_list.
    + intros [= <-]. cbn -[identifiers_as_specified]. split; [done|]. intros records.
      rewrite (identifiers_as_specified_explicit _ _ _ _ Hid).
      rewrite handled_app. cbn -[identifiers_as_specified]. by rewrite <- app_assoc.
    + destruct (make _ _ _) as [[ret self1]|e] eqn:Hmake; [|done].
      cbn -[identifiers_as_specified]. intros [= <-].
      apply make_frame in Hmake as (Hi & Hn & _ & Hh & _).
      split; [done|]. intros records.
      rewrite (identifiers_as_specified_explicit _ _ _ _ Hid).
      rewrite Hh, Hn. by rewrite <- app_assoc.
  - cbn -[identifiers_as_specified]. destruct has_list.
    + intros [= <-]. cbn -[identifiers_as_specified]. split; [done|]. intros records.
      rewrite (identifiers_as_specified_fresh _ _ _ Hid).
      rewrite handled_app. cbn -[identifiers_as_specified]. by rewrite <- app_assoc.
    + destruct (make _ _ _) as [[ret self1]|e] eqn:Hmake; [|done].
      cbn -[identifiers_as_specified]. intros [= <-].
      apply make_frame in Hmake as (Hi & Hn & _ & Hh & _).
      split; [done|]. intros records.
      rewrite (identifiers_as_specified_fresh _ _ _ Hid).
      rewrite Hh, Hn. cbn -[identifiers_as_specified]. by rewrite <- app_assoc.
Qed.

Lemma drain_handled self records self' :
  drain self records = Ok self' →
  importer self' = importer self ∧
  handled (trace self') =
    (handled (trace self) ++
     identifiers_as_specified (_index self)
       (omap (kwargs_preprocessor (importer self)) records))%list.
Proof.
  revert self. induction records as [|kwargs_in records IH]; intros self.
  - intros [= <-]. cbn. by rewrite app_nil_r.
  - cbn [drain].
    destruct (process_kwargs self kwargs_in) as [self1|e] eqn:Hp; [|done].
    cbn. intros Hd. apply IH in Hd as [Hi Hh].
    apply process_kwargs_handled in Hp as [Hi1 Hp].
    split; [congruence|]. rewrite Hh, Hi1, Hp.
    f_equal. f_equal. cbn [omap list_omap].
    by destruct (kwargs_preprocessor (importer self) kwargs_in).
Qed.

(** With a hook that never raises and string identifiers, draining
    returns. *)
Lemma make_returns self idnumber kwargs :
  hook_total (importer self) →
  ∃ ret self', make self idnumber kwargs = Ok (ret, self').
Proof.
  intros Hh. rewrite make_eq.
  destruct (nodes_of self !! object_key self idnumber) as [node|]; [|eauto].
  destruct (Hh (data node) kwargs (nodes_of self)) as [[ret nodes] ->].
  eauto.
Qed.

Lemma process_kwargs_returns self kwargs_in :
  hook_total (importer self) →
  (∀ kwargs, kwargs_preprocessor (importer self) kwargs_in = Some kwargs →
             idnumber_is_str kwargs) →
  ∃ self', process_kwargs self kwargs_in = Ok self'.
Proof.
  intros Hh Hstr. unfold process_kwargs.
  destruct (kwargs_preprocessor (importer self) kwargs_in) as [kwargs|];
    [|eauto].
  specialize (Hstr kwargs eq_refl).
  generalize (has_list_value kwargs). intros has_list.
  unfold take_idnumber, idnumber_is_str in *.
  destruct (kwargs !! "idnumber") as [v|].
  - destruct (Hstr v eq_refl) as [s ->]. cbn. destruct has_list; [eauto|].
    destruct (make_returns self s (delete "idnumber" kwargs) Hh)
      as (ret & self' & ->). cbn. eauto.
  - cbn. destruct has_list; [eauto|].
    destruct (make_returns (set_index self (_index self + 1))
                (Py.str (_index self)) kwargs Hh) as (ret & self' & ->).
    cbn. eauto.
Qed.

Lemma drain_returns self (records : list Attrs) :
  hook_total (importer self) →
  (∀ kwargs_in kwargs,
     kwargs_in ∈ records →
     kwargs_preprocessor (importer self) kwargs_in = Some kwargs →
     idnumber_is_str kwargs) →
  ∃ self', drain self records = Ok self'.
Proof.
  revert self. induction records as [|kwargs_in records IH];
    intros self Hh Hstr; [by eexists|].
  cbn [drain].
  destruct (process_kwargs_returns self kwargs_in Hh) as [self1 H1].
  { intros kwargs. apply Hstr. by left. }
  rewrite H1. cbn.
  apply process_kwargs_handled in H1 as [Hi _].
  apply IH; rewrite Hi; [done|].
  intros ki kw Hin. apply Hstr. by right.
Qed.

(** Without explicit identifiers the rule counts up from [next]. *)
Lemma identifiers_as_specified_sequence (next : nat) (records : list Attrs) :
  (∀ kwargs, kwargs ∈ records → kwargs !! "idnumber" = None) →
  identifiers_as_specified next records =
    zip (Py.str <$> seq next (length records)) records.
Proof.
  revert next. induction records as [|kwargs records IH]; intros next Hall.
  - done.
  - cbn. rewrite (Hall kwargs) by (by left).
    rewrite Nat.add_1_r, IH; [done|]. intros kw Hkw. apply Hall. by right.
Qed.

End Pipeline.

(** C10.  In one run, the records that pass the preprocessing hook are
    handled in read order under the identifiers of the specification's
    rule: an explicit [idnumber] is the identifier and is removed from the
    mapping handed on, otherwise the identifier is the next number of the
    sequence 0, 1, 2, ... whose counter the run resets to 0.  Draining
    returns when the explicit identifiers are strings and the
    duplicate-resolution hook does not raise. *)
Theorem identifiers_in_read_order (self : SubBranch) :
  let records :=
    omap (kwargs_preprocessor (importer self)) (reader (importer self)) in
  (∀ self',
     pos_drain self = Ok self' →
     handled (trace self') =
       (handled (trace self) ++ identifiers_as_specified 0 records)%list ∧
     ((∀ kwargs, kwargs ∈ records → kwargs !! "idnumber" = None) →
      handled (trace self') =
        (handled (trace self) ++
         zip (Py.str <$> seq 0 (length records)) records)%list)) ∧
  (hook_total (importer self) →
   (∀ kwargs, kwargs ∈ records → idnumber_is_str kwargs) →
   ∃ self', pos_drain self = Ok self').
Proof.
  intros records. split.
  - intros self' Hd.
    assert (H : handled (trace self') =
      (handled (trace self) ++ identifiers_as_specified 0 records)%list).
    { unfold pos_drain in Hd. cbn [importer set_index set_temp] in Hd.
      destruct (reader_is_generator (importer self));
        by apply drain_handled in Hd as [_ Hd]. }
    split; [done|]. intros Hnone.
    by rewrite H, identifiers_as_specified_sequence.
  - intros Hh Hstr. unfold pos_drain. cbn [importer set_index set_temp].
    assert (∃ self',
      drain (set_index (set_temp self []) 0) (reader (importer self))
      = Ok self') as [self' Hd].
    { apply drain_returns; [done|]. intros kwargs_in kwargs Hin Hpre.
      apply Hstr. apply list_elem_of_omap. eauto. }
    exists self'. by destruct (reader_is_generator (importer self)).
Qed.

Lemma identifiers_in_read_order_witness :
  ∃ self',
    pos_drain scalars_run = Ok self' ∧
    handled (trace self') =
      [("0", {[ "name" := VStr "u" ]}); ("1", {[ "name" := VStr "v" ]});
       ("2", {[ "name" := VStr "w" ]})].
Proof.
  destruct (proj2 (identifiers_in_read_order scalars_run)) as [self' Hd].
  - intros existing kwargs nodes. by eexists.
  - intros kwargs Hin v Hv.
    repeat (apply elem_of_cons in Hin as [-> | Hin]);
      [by vm_compute in Hv .. | by apply elem_of_nil in Hin].
  - exists self'. split; [done|].
    apply (proj1 (proj1 (identifiers_in_read_order scalars_run) self' Hd)).
Defined.

(** A record with an explicit identifier does not consume a number, and a
    record that is buffered does. *)
Example identifiers_of_a_mixed_run :
  match pos_drain mixed_run with
  | Ok self' => Some (handled (trace self'), _temp self')
  | Raise _ => None
  end =
  Some ([("0", {[ "name" := VStr "u" ]}); ("k9", {[ "name" := VStr "v" ]});
         ("1", {[ "tags" := VList [VStr "t"] ]})],
        [("1", [ {[ "tags" := VList [VStr "t"] ]} ])]).
Proof. vm_compute. reflexivity. Qed.

(** ** Merging the fragments of one identifier *)

Section Merge.
Implicit Types (prepared item p : Attrs) (k : string) (v : Value).

Lemma foldM_keyed_other g (l : list (string * Value)) p p' k :
  keyed g → foldM g p l = Ok p' → k ∉ l.*1 → p' !! k = p !! k.
Proof.
  intros Hg. revert p. induction l as [|kv l IH]; intros p.
  - by intros [= <-].
  - cbn [foldM]. destruct (g p kv) as [q|e] eqn:Hq; [|done]. cbn.
    intros Hf Hk. cbn in Hk.
    apply not_elem_of_cons in Hk as [Hne Hk].
    rewrite (IH q Hf Hk). by apply (Hg p kv q Hq).
Qed.

Lemma foldM_keyed_at g (l : list (string * Value)) p p' k v :
  keyed g → NoDup l.*1 → (k, v) ∈ l → foldM g p l = Ok p' →
  ∃ p0 p1, p0 !! k = p !! k ∧ g p0 (k, v) = Ok p1 ∧ p' !! k = p1 !! k.
Proof.
  intros Hg. revert p. induction l as [|kv l IH]; intros p Hnd Hin.
  - by apply elem_of_nil in Hin.
  - cbn in Hnd. apply NoDup_cons in Hnd as [Hkv Hnd].
    cbn [foldM]. destruct (g p kv) as [q|e] eqn:Hq; [|done]. cbn.
    intros Hf. apply elem_of_cons in Hin as [<- | Hin].
    + exists p, q. split; [done|]. split; [done|].
      by apply (foldM_keyed_other g l q p' k).
    + assert (Hne : k ≠ kv.1).
      { intros ->. apply Hkv. apply list_elem_of_fmap. by exists (kv.1, v). }
      destruct (IH q Hnd Hin Hf) as (p0 & p1 & H0 & H1 & H2).
      exists p0, p1. split; [|done]. rewrite H0. by apply (Hg p kv q Hq).
Qed.

Lemma list_step_keyed : keyed list_step.
Proof.
  intros p [k v] p'. unfold list_step, extend_list. cbn.
  destruct v as [a|l|s]; try by intros [= <-].
  destruct (p !! k) as [[a|acc|s]|]; try done;
    intros [= <-] k' Hk'; by rewrite lookup_insert_ne.
Qed.

Lemma set_step_keyed : keyed set_step.
Proof.
  intros p [k v] p'. unfold set_step, update_set. cbn.
  destruct v as [a|l|s]; try by intros [= <-].
  destruct (p !! k) as [[a|acc|s']|]; try done;
    intros [= <-] k' Hk'; by rewrite lookup_insert_ne.
Qed.

Lemma list_step_at p k v p' :
  list_step p (k, v) = Ok p' →
  p' !! k = if is_list v then Some (merged_value (p !! k) v) else p !! k.
Proof.
  unfold list_step, extend_list. cbn.
  destruct v as [a|l|s]; try by intros [= <-].
  destruct (p !! k) as [[a|acc|s]|]; try done;
    intros [= <-]; by rewrite lookup_insert_eq.
Qed.

Lemma set_step_at p k v p' :
  set_step p (k, v) = Ok p' →
  p' !! k = if is_set v then Some (merged_value (p !! k) v) else p !! k.
Proof.
  unfold set_step, update_set. cbn.
  destruct v as [a|l|s]; try by intros [= <-].
  destruct (p !! k) as [[a|acc|s']|]; try done;
    intros [= <-]; by rewrite lookup_insert_eq.
Qed.

(** One fragment: under every key of the fragment the accumulator holds
    the merged value, and it is unchanged elsewhere. *)
Lemma merge_item_lookup prepared item p' k :
  merge_item prepared item = Ok p' →
  p' !! k = match item !! k with
            | Some v => Some (merged_value (prepared !! k) v)
            | None => prepared !! k
            end.
Proof.
  unfold merge_item.
  destruct (foldM list_step prepared (map_to_list item)) as [p1|e] eqn:H1;
    [|done].
  cbn. destruct (foldM set_step p1 (map_to_list item)) as [p2|e] eqn:H2;
    [|done].
  cbn. intros [= <-].
  pose proof (NoDup_fst_map_to_list item) as Hnd.
  rewrite lookup_union, map_lookup_filter.
  destruct (item !! k) as [v|] eqn:Hk.
  - apply elem_of_map_to_list in Hk.
    destruct (foldM_keyed_at _ _ _ _ _ _ list_step_keyed Hnd Hk H1)
      as (q0 & q1 & Hq0 & Hq1 & Hp1).
    destruct (foldM_keyed_at _ _ _ _ _ _ set_step_keyed Hnd Hk H2)
      as (r0 & r1 & Hr0 & Hr1 & Hp2).
    apply list_step_at in Hq1. apply set_step_at in Hr1.
    rewrite Hp2, Hr1, Hr0, Hp1, Hq1, Hq0. cbn.
    destruct v as [a|l|s]; cbn.
    + rewrite option_guard_True by (by intros []). cbn.
      by destruct (prepared !! k).
    + rewrite option_guard_False by (intros H; by apply H). cbn.
      done.
    + rewrite option_guard_False by (intros H; by apply H). cbn.
      done.
  - assert (Hk' : k ∉ (map_to_list item).*1).
    { intros ((k' & v) & -> & Hin%elem_of_map_to_list)%list_elem_of_fmap.
      cbn in Hk. congruence. }
    rewrite (foldM_keyed_other _ _ _ _ _ set_step_keyed H2 Hk').
    rewrite (foldM_keyed_other _ _ _ _ _ list_step_keyed H1 Hk'). cbn.
    by destruct (prepared !! k).
Qed.

(** All the fragments: the accumulator holds, under every name, the merge
    of the specification. *)
Lemma merge_items_lookup prepared (fragments : list Attrs) p' k :
  foldM merge_item prepared fragments = Ok p' →
  p' !! k = merged_attribute k (prepared !! k) fragments.
Proof.
  revert prepared. induction fragments as [|item fragments IH];
    intros prepared.
  - by intros [= <-].
  - cbn [foldM]. destruct (merge_item prepared item) as [p1|e] eqn:H1;
      [|done].
    cbn. intros Hf. rewrite (IH p1 Hf).
    by rewrite (merge_item_lookup _ _ _ k H1).
Qed.

(** The merge loop calls [make] after every fragment of the identifier,
    each time with the attributes merged so far. *)
Lemma merge_fragments_calls (self : SubBranch) (idnumber : string)
    prepared (kwargs_list : list Attrs) (self' : SubBranch) :
  merge_fragments self idnumber prepared kwargs_list = Ok self' →
  ∃ accs : list Attrs,
    make_calls (trace self') =
      (make_calls (trace self) ++ map (λ acc, (idnumber, acc)) accs)%list ∧
    length accs = length kwargs_list ∧
    ∀ i acc, accs !! i = Some acc →
             foldM merge_item prepared (take (S i) kwargs_list) = Ok acc.
Proof.
  revert self prepared.
  induction kwargs_list as [|item kwargs_list IH]; intros self prepared.
  - intros [= <-]. exists []. by rewrite app_nil_r.
  - cbn [merge_fragments].
    destruct (merge_item prepared item) as [p1|e] eqn:H1; [|done].
    cbn. destruct (make self idnumber p1) as [[ret self1]|e] eqn:Hm; [|done].
    cbn. intros (accs & Hc & Hl & Hacc)%IH.
    apply make_frame in Hm as (_ & _ & _ & _ & Hm).
    exists (p1 :: accs). split; [|split].
    + rewrite Hc, Hm. by rewrite <- app_assoc.
    + cbn. by rewrite Hl.
    + intros [|i] acc Hi.
      * injection Hi as <-. cbn. by rewrite H1.
      * cbn in Hi. cbn [take foldM]. rewrite H1. cbn. by apply Hacc.
Qed.

End Merge.



(** C1, on the three fragments for identifier 5: the run calls [make]
    three times for the identifier, with the attributes merged so far, and
    not once with the merged attributes.  The first call creates the object
    from the first fragment alone; the two others find a duplicate and go to
    the resolution hook, so that under an importer whose hook leaves the
    store alone the object for 5 has no [name]. *)
Theorem merge_calls_make_per_fragment :
  ∃ self',
    __pos__ fragments_run = Ok self' ∧
    make_calls (trace self') =
      [("5", {[ "tags" := VList [VStr "a"] ]});
       ("5", {[ "tags" := VList [VStr "a"; VStr "b"]; "name" := VStr "x" ]});
       ("5", {[ "tags" := VList [VStr "a"; VStr "b"; VStr "c"];
                "name" := VStr "y" ]})] ∧
    length (resolve_calls (trace self')) = 2 ∧
    ∃ obj, get self' "5" = Ok (Some obj) ∧
           getattr obj "name" = Raise AttributeError.
Proof.
  destruct (__pos__ fragments_run) as [self'|e] eqn:Hrun;
    [|by vm_compute in Hrun].
  assert (Hobs :
    match __pos__ fragments_run with
    | Ok s => Some (make_calls (trace s), length (resolve_calls (trace s)),
                    get s "5")
    | Raise _ => None
    end =
    Some ([("5", {[ "tags" := VList [VStr "a"] ]});
           ("5", {[ "tags" := VList [VStr "a"; VStr "b"];
                    "name" := VStr "x" ]});
           ("5", {[ "tags" := VList [VStr "a"; VStr "b"; VStr "c"];
                    "name" := VStr "y" ]})], 2,
          Ok (Some (mkObj {[ "tags" := VList [VStr "a"] ]}))))
    by (vm_compute; reflexivity).
  rewrite Hrun in Hobs. injection Hobs as Hcalls Hres Hget.
  exists self'. split; [done|]. split; [done|]. split; [done|].
  exists (mkObj {[ "tags" := VList [VStr "a"] ]}). split; [done|].
  vm_compute. reflexivity.
Qed.

(** * Further properties of the code *)

(** ** Keys and identifiers *)

Section Keys.
Implicit Types (c d : ascii) (s p t : string) (self : SubBranch).

Lemma append_cons (a : ascii) s t : String a s +:+ t = String a (s +:+ t).
Proof. reflexivity. Qed.

Lemma append_nil t : "" +:+ t = t.
Proof. reflexivity. Qed.

Lemma append_assoc s p t : (s +:+ p) +:+ t = s +:+ (p +:+ t).
Proof.
  induction s as [|a s IH]; [done|]. by rewrite !append_cons, IH.
Qed.

Lemma prefix_append p t : String.prefix p (p +:+ t) = true.
Proof.
  induction p as [|a p IH]; [by destruct t|].
  rewrite append_cons. cbn. destruct (ascii_dec a a); [done|congruence].
Qed.

Lemma split_nonempty c s : Py.split c s ≠ [].
Proof.
  destruct s as [|a s]; cbn; [done|].
  destruct (decide (a = c)); [done|]. by destruct (Py.split c s).
Qed.

Lemma split_length c s : length (Py.split c s) = S (count_char c s).
Proof.
  induction s as [|a s IH]; cbn; [done|].
  destruct (decide (a = c)); cbn; [by rewrite IH|].
  destruct (Py.split c s); cbn in *; [done|]. done.
Qed.

Lemma split_without c s : contains c s = false → Py.split c s = [s].
Proof.
  induction s as [|a s IH]; cbn; [done|].
  destruct (decide (a = c)); [done|]. intros H. by rewrite (IH H).
Qed.

Lemma split_segments c s :
  Forall (λ seg, contains c seg = false) (Py.split c s).
Proof.
  induction s as [|a s IH]; cbn; [by repeat constructor|].
  destruct (decide (a = c)); [by constructor|].
  destruct (Py.split c s) as [|seg segs].
  - repeat constructor. cbn. by destruct (decide (a = c)).
  - apply Forall_cons in IH as [H1 H2]. constructor; [|done].
    cbn. by destruct (decide (a = c)).
Qed.

Lemma last_segment_elem (l : list string) :
  l ≠ [] → Py.last_segment l ∈ l.
Proof.
  unfold Py.last_segment. induction l as [|x l IH]; [done|]. intros _.
  destruct l as [|y l]; [by left|]. right. by apply IH.
Qed.

Lemma last_segment_cons x (l : list string) :
  l ≠ [] → Py.last_segment (x :: l) = Py.last_segment l.
Proof. by destruct l. Qed.

Lemma last_segment_append c p t :
  Py.last_segment (Py.split c (p +:+ String c t)) =
  Py.last_segment (Py.split c t).
Proof.
  induction p as [|a p IH]; [rewrite append_nil | rewrite append_cons];
    cbn [Py.split].
  - destruct (decide (c = c)); [|done].
    apply last_segment_cons, split_nonempty.
  - destruct (decide (a = c)).
    + rewrite last_segment_cons by apply split_nonempty. done.
    + destruct (Py.split c (p +:+ String c t)) as [|seg segs] eqn:Hs.
      { by apply split_nonempty in Hs. }
      rewrite <- IH. destruct segs; [|done].
      (* one segment only: impossible, the separator occurs *)
      exfalso. pose proof (split_length c (p +:+ String c t)) as Hl.
      rewrite Hs in Hl. cbn in Hl.
      assert (0 < count_char c (p +:+ String c t)); [|lia].
      clear. induction p as [|b p IH];
        [rewrite append_nil | rewrite append_cons]; cbn.
      * destruct (decide (c = c)); [lia|done].
      * lia.
Qed.

Lemma object_key_parent self x :
  object_key self x =
  (parent_keypath self +:+ String (self_path_delim self) "") +:+ x.
Proof.
  unfold object_key, parent_keypath, keypath, self_path_delim. cbn.
  by rewrite !append_assoc, !append_cons, append_nil.
Qed.

(** The identifier is read back from the key it was joined into. *)
Lemma last_segment_object_key self x :
  contains (self_path_delim self) x = false →
  Py.last_segment (Py.split (self_path_delim self) (object_key self x)) = x.
Proof.
  intros Hx. rewrite object_key_parent, append_assoc, append_cons, append_nil.
  rewrite last_segment_append. by rewrite split_without.
Qed.

End Keys.

Section Children.
Implicit Types (self : SubBranch) (x key : string).

Lemma subscript_None (nodes : gmap string Node) (key : string) :
  nodes !! key = None → subscript nodes key = Raise KeyError.
Proof. unfold subscript. by intros ->. Qed.

Lemma mapM_subscript_raises (nodes : gmap string Node) (f : string → string)
    (l : list string) x :
  x ∈ l → nodes !! f x = None →
  mapM (λ x, subscript nodes (f x)) l = Raise KeyError.
Proof.
  induction l as [|y l IH]; intros Hin Hx.
  - by apply elem_of_nil in Hin.
  - cbn [mapM]. destruct (nodes !! f y) as [n|] eqn:Hy.
    + rewrite (subscript_Some _ _ _ Hy). cbn.
      apply elem_of_cons in Hin as [-> | Hin]; [congruence|].
      by rewrite IH.
    + by rewrite (subscript_None _ _ Hy).
Qed.

Lemma yield_objects_raises self (ids : gset string) x :
  x ∈ ids → nodes_of self !! object_key self x = None →
  yield_objects self ids = Raise KeyError.
Proof.
  intros Hin Hx. unfold yield_objects.
  pose proof (mapM_subscript_raises (nodes_of self) (object_key self)
                (elements ids) x) as H.
  unfold object_key, keypath in H. unfold self_path_delim.
  rewrite H; [done| by apply elem_of_elements | done].
Qed.

(** In a flat store the scan finds the direct children whose key does not
    end with the subbranch name. *)
Lemma elem_of__idnumbers_flat self x :
  flat_under self →
  x ∈ _idnumbers self ↔
  contains (self_path_delim self) x = false ∧
  is_Some (nodes_of self !! object_key self x) ∧
  Py.endswith (object_key self x) (subbranchname self) = false.
Proof.
  intros Hflat. rewrite elem_of__idnumbers. split.
  - intros (key & Hd%elem_of_dom & [Hs He]%is_child_key_spec & ->).
    destruct (Hflat key Hd Hs) as (x & Hx & ->).
    rewrite last_segment_object_key by done. done.
  - intros (Hx & Hd & He). exists (object_key self x).
    split; [by apply elem_of_dom|]. split.
    + apply is_child_key_spec. split; [|done].
      rewrite object_key_parent. apply prefix_append.
    + by rewrite last_segment_object_key.
Qed.

End Children.

(** X1.  An identifier found by the scan of the store never contains the
    delimiter: it is the last segment of a key. *)
Theorem scanned_identifier_has_no_delimiter (self : SubBranch) (x : string) :
  x ∈ _idnumbers self → contains (self_path_delim self) x = false.
Proof.
  intros (key & _ & _ & ->)%elem_of__idnumbers.
  pose proof (split_segments (self_path_delim self) key) as Hall.
  rewrite Forall_forall in Hall. apply Hall.
  apply last_segment_elem, split_nonempty.
Qed.

Lemma scanned_identifier_has_no_delimiter_witness :
  contains "/" "y" = false.
Proof.
  apply (scanned_identifier_has_no_delimiter nested_case "y").
  assert (_idnumbers nested_case = {["1"; "y"]}) as ->
    by (vm_compute; reflexivity).
  apply elem_of_union. right. by apply elem_of_singleton.
Defined.

(** X2.  When every key stored under the prefix of a base subbranch is a
    direct child, [get_objects] returns, and it yields exactly the payloads
    of the children whose key does not end with the subbranch name;
    placeholder nodes are passed over. *)
Theorem get_objects_of_flat_store (self : SubBranch) :
  klass self = KSubBranch →
  flat_under self →
  ∃ objs,
    get_objects self = Ok objs ∧
    ∀ o, o ∈ objs ↔
         ∃ x, contains (self_path_delim self) x = false ∧
              Py.endswith (object_key self x) (subbranchname self) = false ∧
              nodes_of self !! object_key self x = Some (mkNode (Some o)).
Proof.
  intros Hk Hflat. unfold get_objects. rewrite (idnumbers_base self Hk).
  destruct (yield_objects_ok self (_idnumbers self)) as (objs & Ho & Hin).
  { intros x Hx. by apply (elem_of__idnumbers_flat self x Hflat) in Hx
      as (_ & Hd & _). }
  exists objs. split; [done|]. intros o. rewrite Hin. split.
  - intros (x & (Hx & Hd & He)%(elem_of__idnumbers_flat self x Hflat) & Hg).
    exists x. split; [done|]. split; [done|].
    rewrite get_eq in Hg.
    destruct (nodes_of self !! object_key self x) as [[d]|]; [|congruence].
    cbn in Hg. congruence.
  - intros (x & Hx & He & Hn). exists x. split.
    + apply (elem_of__idnumbers_flat self x Hflat). rewrite Hn. eauto.
    + by rewrite get_eq, Hn.
Qed.

Lemma people_flat : flat_under people.
Proof.
  intros key [n Hn] Hs.
  assert (Hk : key ∈ dom (nodes_of people)) by (apply elem_of_dom; eauto).
  assert (dom (nodes_of people) =
          {["b"; "b/s"; "b/s/1"; "b/s/2"; "b/s/3"]}) as Hd
    by (vm_compute; reflexivity).
  rewrite Hd in Hk. clear Hd Hn.
  repeat (apply elem_of_union in Hk as [Hk|Hk]);
    apply elem_of_singleton in Hk as ->;
    try (by vm_compute in Hs).
  - by exists "1".
  - by exists "2".
  - by exists "3".
Qed.

Lemma get_objects_of_flat_store_witness :
  ∃ objs, get_objects people = Ok objs ∧ person "Joanna" ∈ objs.
Proof.
  destruct (get_objects_of_flat_store people eq_refl people_flat)
    as (objs & Ho & Hin).
  exists objs. split; [done|]. apply Hin. exists "2".
  repeat split; vm_compute; reflexivity.
Defined.

(** X3.  [get_objects] raises [KeyError] as soon as one identifier of
    [idnumbers] has no node directly under the subbranch: an identifier
    scanned from a deeper key, or one of a narrowed collection that the
    store does not hold. *)
Theorem get_objects_key_error (self : SubBranch) (x : string) :
  x ∈ idnumbers self →
  nodes_of self !! object_key self x = None →
  get_objects self = Raise KeyError.
Proof. intros Hx Hn. by apply (yield_objects_raises self _ x). Qed.

Lemma get_objects_key_error_witness :
  get_objects nested_case = Raise KeyError ∧
  get_objects narrowed_unknown = Raise KeyError.
Proof.
  split.
  - apply (get_objects_key_error nested_case "y").
    + assert (idnumbers nested_case = {["1"; "y"]}) as ->
        by (vm_compute; reflexivity).
      apply elem_of_union. right. by apply elem_of_singleton.
    + vm_compute. reflexivity.
  - apply (get_objects_key_error narrowed_unknown "8").
    + assert (idnumbers narrowed_unknown = {["3"; "8"]}) as ->
        by (vm_compute; reflexivity).
      apply elem_of_union. right. by apply elem_of_singleton.
    + vm_compute. reflexivity.
Defined.

(** ** Making objects, further *)

Section Making.
Implicit Types (self : SubBranch) (idnumber key : string) (kwargs : Attrs).

(** The scan after one more key was stored. *)
Lemma _idnumbers_insert self key (n : Node) :
  _idnumbers (set_nodes self (<[key := n]> (nodes_of self))) =
  (if is_child_key self key
   then {[ Py.last_segment (Py.split (self_path_delim self) key) ]}
   else ∅) ∪ _idnumbers self.
Proof.
  apply set_eq. intros x. rewrite elem_of_union, !elem_of__idnumbers.
  change (nodes_of (set_nodes self (<[key := n]> (nodes_of self))))
    with (<[key := n]> (nodes_of self)).
  change (self_path_delim (set_nodes self (<[key := n]> (nodes_of self))))
    with (self_path_delim self).
  change (is_child_key (set_nodes self (<[key := n]> (nodes_of self))))
    with (is_child_key self).
  split.
  - intros (key' & Hd & Hc & ->). rewrite dom_insert_L in Hd.
    apply elem_of_union in Hd as [->%elem_of_singleton | Hd].
    + left. rewrite Hc. by apply elem_of_singleton.
    + right. eauto.
  - intros [Hx | (key' & Hd & Hc & ->)].
    + destruct (is_child_key self key) eqn:Hc;
        [|by apply not_elem_of_empty in Hx].
      apply elem_of_singleton in Hx as ->. exists key.
      split; [|done]. rewrite dom_insert_L. apply elem_of_union. left.
      by apply elem_of_singleton.
    + exists key'. split; [|done]. rewrite dom_insert_L.
      apply elem_of_union. by right.
Qed.

Lemma is_child_key_object_key self x :
  is_child_key self (object_key self x) =
  negb (Py.endswith (object_key self x) (subbranchname self)).
Proof.
  unfold is_child_key.
  assert (Py.startswith (object_key self x)
            (parent_keypath self +:+ String (self_path_delim self) "")
          = true) as ->.
  { rewrite object_key_parent. apply prefix_append. }
  by rewrite andb_true_r.
Qed.

(** [make] when the key is free. *)
Lemma make_new self idnumber kwargs :
  nodes_of self !! object_key self idnumber = None →
  make self idnumber kwargs =
    Ok (Some (mkObj kwargs),
        set_nodes (emit self (EvMake idnumber kwargs))
          (<[object_key self idnumber := mkNode (Some (mkObj kwargs))]>
             (nodes_of self))).
Proof. intros Hnew. by rewrite make_eq, Hnew. Qed.

End Making.

(** X4.  [make] on an identifier that has no node yet creates the payload
    from the keyword arguments and stores it under the key path of the
    identifier: [get] finds it afterwards, no other key is touched, and the
    duplicate-resolution hook is not called. *)
Theorem make_fresh (self : SubBranch) (idnumber : string) (kwargs : Attrs) :
  nodes_of self !! object_key self idnumber = None →
  ∃ self',
    make self idnumber kwargs = Ok (Some (mkObj kwargs), self') ∧
    get self' idnumber = Ok (Some (mkObj kwargs)) ∧
    (∀ key, key ≠ object_key self idnumber →
            nodes_of self' !! key = nodes_of self !! key) ∧
    resolve_calls (trace self') = resolve_calls (trace self).
Proof.
  intros Hnew. rewrite make_eq, Hnew. eexists. split; [done|].
  split; [|split].
  - rewrite get_eq.
    change (nodes_of (set_nodes ?s ?n)) with n.
    change (object_key (set_nodes ?s ?n) idnumber)
      with (object_key self idnumber).
    by rewrite lookup_insert_eq.
  - intros key Hkey. change (nodes_of (set_nodes ?s ?n)) with n.
    by rewrite lookup_insert_ne.
  - cbn. unfold resolve_calls. rewrite omap_app. cbn. by rewrite app_nil_r.
Qed.

Lemma make_fresh_witness :
  ∃ self',
    make people "4" {[ "name" := VStr "Ann" ]} = Ok (Some (person "Ann"), self') ∧
    get self' "4" = Ok (Some (person "Ann")).
Proof.
  destruct (make_fresh people "4" {[ "name" := VStr "Ann" ]})
    as (self' & Hm & Hg & _); [vm_compute; reflexivity|].
  exists self'. split; done.
Defined.

(** X5.  After [make] created the node of an identifier that holds no
    delimiter, a base subbranch lists the identifier in [idnumbers], and
    nothing else is new, except when the key ends with the subbranch name:
    then [idnumbers] is what it was, although [get] finds the object. *)
Theorem make_then_idnumbers (self self' : SubBranch) (idnumber : string)
    (kwargs : Attrs) (ret : option Obj) :
  klass self = KSubBranch →
  contains (self_path_delim self) idnumber = false →
  nodes_of self !! object_key self idnumber = None →
  make self idnumber kwargs = Ok (ret, self') →
  idnumbers self' =
    (if Py.endswith (object_key self idnumber) (subbranchname self)
     then idnumbers self
     else {[ idnumber ]} ∪ idnumbers self).
Proof.
  intros Hk Hd Hnew. rewrite make_eq, Hnew. intros [= _ <-].
  unfold idnumbers at 1.
  change (klass (set_nodes ?s ?n)) with (klass self). rewrite Hk.
  rewrite (idnumbers_base self Hk).
  pose proof (_idnumbers_insert (emit self (EvMake idnumber kwargs))
                (object_key self idnumber)
                (mkNode (Some (mkObj kwargs)))) as Hins.
  change (_idnumbers (emit self (EvMake idnumber kwargs)))
    with (_idnumbers self) in Hins.
  change (is_child_key (emit self (EvMake idnumber kwargs)))
    with (is_child_key self) in Hins.
  change (self_path_delim (emit self (EvMake idnumber kwargs)))
    with (self_path_delim self) in Hins.
  change (nodes_of (emit self (EvMake idnumber kwargs)))
    with (nodes_of self) in Hins.
  rewrite Hins, is_child_key_object_key, last_segment_object_key by done.
  destruct (Py.endswith _ _); cbn [negb]; [|done].
  by rewrite (left_id_L ∅ (∪)).
Qed.

Lemma make_then_idnumbers_witness :
  ∃ self',
    make people "4" {[ "name" := VStr "Ann" ]} = Ok (Some (person "Ann"), self') ∧
    idnumbers self' = {[ "4" ]} ∪ idnumbers people.
Proof.
  eexists. split; [by apply make_new|].
  eapply (make_then_idnumbers people _ "4" {[ "name" := VStr "Ann" ]}
            (Some (person "Ann"))); [done..|].
  by apply make_new.
Defined.

(** An object made under an identifier that ends with the subbranch name is
    stored and found by [get], and missing from [idnumbers]. *)
Example make_hidden_child :
  match make suffix_case "bs" {[ "name" := VStr "Bo" ]} with
  | Ok (_, self') => Some (get self' "bs", elements (idnumbers self'))
  | Raise _ => None
  end = Some (Ok (Some (person "Bo")), []).
Proof. vm_compute. reflexivity. Qed.

(** X6.  A second [make] for the identifier that a first [make] created is
    handed to the duplicate-resolution hook, with the object the first call
    made and the attributes of the second; the store is changed by the hook
    only. *)
Theorem make_twice (self self1 : SubBranch) (idnumber : string)
    (kwargs1 kwargs2 : Attrs) (ret : option Obj) :
  nodes_of self !! object_key self idnumber = None →
  make self idnumber kwargs1 = Ok (ret, self1) →
  make self1 idnumber kwargs2 =
    match resolve_duplicate (importer self) (Some (mkObj kwargs1)) kwargs2
            (nodes_of self1) with
    | Ok (ret2, nodes) =>
        Ok (ret2,
            set_nodes
              (emit (emit self1 (EvMake idnumber kwargs2))
                 (EvResolve (Some (mkObj kwargs1)) kwargs2))
              nodes)
    | Raise e => Raise e
    end.
Proof.
  intros Hnew. rewrite (make_eq self), Hnew. intros [= _ <-].
  rewrite make_eq.
  change (nodes_of (set_nodes ?s ?n)) with n.
  change (object_key (set_nodes ?s ?n) idnumber)
    with (object_key self idnumber).
  by rewrite lookup_insert_eq.
Qed.

Lemma make_twice_witness :
  ∃ self1 self2,
    make people "4" {[ "name" := VStr "Ann" ]} = Ok (Some (person "Ann"), self1) ∧
    make self1 "4" {[ "name" := VStr "Bea" ]} = Ok (None, self2).
Proof.
  assert (Hm := make_new people "4" {[ "name" := VStr "Ann" ]} eq_refl).
  eexists. eexists. split; [exact Hm|].
  rewrite (make_twice people _ "4" {[ "name" := VStr "Ann" ]}
             {[ "name" := VStr "Bea" ]} _ eq_refl Hm).
  reflexivity.
Defined.

(** ** Search, further *)

Section Searching.
Implicit Types (self : SubBranch) (o : Obj) (a v q : string).

Lemma unpack2_raises (l : list string) :
  length l ≠ 2 → unpack2 l = Raise ValueError.
Proof. destruct l as [|x [|y [|z l]]]; cbn; done. Qed.

Lemma unpack2_returns (l : list string) :
  length l = 2 → ∃ a v, unpack2 l = Ok (a, v).
Proof. destruct l as [|x [|y [|z l]]]; cbn; try done. eauto. Qed.

(** What [filterM] returns: a sublist, made of the elements that passed. *)
Lemma filterM_returns {A} (f : A → Res bool) (l ret : list A) :
  filterM f l = Ok ret →
  ret `sublist_of` l ∧
  Forall (λ x, f x = Ok true) ret ∧
  (ret = [] → Forall (λ x, f x = Ok false) l).
Proof.
  revert ret. induction l as [|x l IH]; intros ret.
  - intros [= <-]. by repeat constructor.
  - cbn [filterM]. destruct (f x) as [b|e] eqn:Hx; [|done]. cbn.
    destruct (filterM f l) as [ret'|e] eqn:Hl; [|done]. cbn.
    intros [= <-]. destruct (IH ret' eq_refl) as (Hs & Ht & Hn).
    destruct b.
    + split; [by constructor|]. split; [by constructor|]. done.
    + split; [by constructor|]. split; [done|].
      intros Hr. constructor; [done|]. by apply Hn.
Qed.

End Searching.

(** X7.  A query that does not hold exactly one colon makes [find_all]
    raise [ValueError], whatever the store holds; a query with one colon is
    split into an attribute name and a value. *)
Theorem find_all_query_shape (self : SubBranch) (q : string) :
  (count_char ":" q ≠ 1 → find_all self q = Raise ValueError) ∧
  (count_char ":" q = 1 →
   ∃ a v, unpack2 (map Py.strip (Py.split ":" q)) = Ok (a, v)).
Proof.
  split; intros Hq.
  - unfold find_all. rewrite unpack2_raises; [done|].
    rewrite length_map, split_length. lia.
  - apply unpack2_returns. rewrite length_map, split_length. lia.
Qed.

Lemma find_all_query_shape_witness :
  find_all people "name" = Raise ValueError ∧
  find_all nested_case "a:b:c" = Raise ValueError.
Proof.
  split.
  - apply (proj1 (find_all_query_shape people "name")). vm_compute. lia.
  - apply (proj1 (find_all_query_shape nested_case "a:b:c")).
    vm_compute. lia.
Defined.

(** X8.  A candidate whose named attribute is truthy and not a string (a
    number other than zero, a list or a set that is not empty) makes
    [find_all] raise [AttributeError]: the value has no [lower]. *)
Theorem find_all_non_string_attribute (self : SubBranch) (q a v : string)
    (objs : list Obj) (o : Obj) (val : Value) :
  unpack2 (map Py.strip (Py.split ":" q)) = Ok (a, v) →
  get_objects self = Ok objs →
  o ∈ objs →
  getattr o a = Ok val → truthy val = true → (∀ s, val ≠ VStr s) →
  find_all self q = Raise AttributeError.
Proof.
  intros Hq Hobjs Ho Hval Ht Hs. unfold find_all. rewrite Hq. cbn.
  rewrite Hobjs. cbn.
  rewrite (filterM_raises _ AttributeError objs o); [done| |done|].
  - intros y e'. apply find_all_test_raises.
  - unfold find_all_test. rewrite Hval. cbn. rewrite Ht.
    destruct val as [[| |s]| |]; try done. by destruct (Hs s).
Qed.

Lemma find_all_non_string_attribute_witness :
  find_all numbered_case "name: jo" = Raise AttributeError.
Proof.
  apply (find_all_non_string_attribute numbered_case "name: jo" "name" "jo"
           [person "John"; mkObj {[ "name" := VInt 7 ]}]
           (mkObj {[ "name" := VInt 7 ]}) (VInt 7)).
  - vm_compute. reflexivity.
  - vm_compute. reflexivity.
  - right. left.
  - vm_compute. reflexivity.
  - reflexivity.
  - discriminate.
Defined.

(** X9.  What [find_all] returns is never an empty list: it is [None] when
    no candidate passes the test, and otherwise the candidates that pass
    it, in the order of [get_objects]. *)
Theorem find_all_result (self : SubBranch) (q : string)
    (r : option (list Obj)) :
  find_all self q = Ok r →
  ∃ a v objs,
    unpack2 (map Py.strip (Py.split ":" q)) = Ok (a, v) ∧
    get_objects self = Ok objs ∧
    match r with
    | Some ret =>
        ret ≠ [] ∧ ret `sublist_of` objs ∧
        Forall (λ o, find_all_test a v o = Ok true) ret
    | None => Forall (λ o, find_all_test a v o = Ok false) objs
    end.
Proof.
  unfold find_all.
  destruct (unpack2 _) as [[a v]|e]; [|done]. cbn.
  destruct (get_objects self) as [objs|e]; [|done]. cbn.
  destruct (filterM _ objs) as [ret|e] eqn:Hf; [|done]. cbn.
  apply filterM_returns in Hf as (Hs & Ht & Hn).
  intros [= <-]. exists a, v, objs. split; [done|]. split; [done|].
  destruct ret as [|o ret]; [by apply Hn|]. done.
Qed.

Lemma find_all_result_witness :
  ∃ a v objs,
    unpack2 (map Py.strip (Py.split ":" "name: jo")) = Ok (a, v) ∧
    get_objects people = Ok objs ∧
    [person "John"; person "Joanna"] `sublist_of` objs.
Proof.
  destruct (find_all_result people "name: jo"
              (Some [person "John"; person "Joanna"]))
    as (a & v & objs & Hq & Ho & _ & Hs & _).
  - vm_compute. reflexivity.
  - exists a, v, objs. split; [exact Hq|]. split; [exact Ho | exact Hs].
Defined.

(** X10.  A subbranch without identifiers yields no object, and [find_all]
    answers [None] to every query with one colon. *)
Theorem reads_of_empty_subbranch (self : SubBranch) (q : string) :
  idnumbers self = ∅ →
  get_objects self = Ok [] ∧
  (count_char ":" q = 1 → find_all self q = Ok None).
Proof.
  intros He.
  assert (Hg : get_objects self = Ok []).
  { unfold get_objects, yield_objects. by rewrite He, elements_empty. }
  split; [done|]. intros Hq.
  destruct (unpack2_returns (map Py.strip (Py.split ":" q)))
    as (a & v & Hu).
  { rewrite length_map, split_length. lia. }
  unfold find_all. by rewrite Hu, Hg.
Qed.

Lemma reads_of_empty_subbranch_witness :
  get_objects childless = Ok [] ∧ find_all childless "name: jo" = Ok None.
Proof.
  destruct (reads_of_empty_subbranch childless "name: jo") as [H1 H2].
  - vm_compute. reflexivity.
  - split; [exact H1|]. apply H2. vm_compute. reflexivity.
Defined.

(** ** Synchronisation operators, further *)

(** X11.  Exclusion acts on the left operand only: [X & A] and [X - A] of
    an excluded subbranch are empty, while [A & X] and [A - X] of a
    subbranch that is not excluded are computed from the identifiers of
    [X] like from any other, each identifier yielded once. *)
Theorem exclusion_is_one_sided (A X : SubBranch) :
  klass A ≠ KSubBranchOff → klass X = KSubBranchOff →
  __and__ X A = [] ∧ __sub__ X A = [] ∧
  list_to_set (__and__ A X) = idnumbers A ∩ _idnumbers X ∧
  list_to_set (__sub__ A X) = idnumbers A ∖ _idnumbers X ∧
  NoDup (__and__ A X) ∧ NoDup (__sub__ A X).
Proof.
  intros HA HX. unfold __and__, __sub__. rewrite HX.
  assert (idnumbers X = _idnumbers X) as -> by (unfold idnumbers; by rewrite HX).
  destruct (klass A) eqn:HkA; try done;
    rewrite !list_to_set_elements_L;
    repeat split; apply NoDup_elements.
Qed.

Lemma exclusion_is_one_sided_witness :
  __and__ excluded people = [] ∧
  list_to_set (__and__ people excluded) = idnumbers people ∩ _idnumbers excluded.
Proof.
  destruct (exclusion_is_one_sided people excluded) as (H1 & _ & H3 & _).
  - discriminate.
  - reflexivity.
  - split; [exact H1 | exact H3].
Defined.

(** The intersection with an excluded subbranch depends on the side. *)
Example intersection_with_excluded :
  __and__ excluded people = [] ∧
  list_to_set (__and__ people excluded) = ({["1"; "2"; "3"]} : gset string).
Proof. split; vm_compute; reflexivity. Qed.

(** ** The import run as a whole *)

Section Run.
Implicit Types (self : SubBranch) (kwargs : Attrs) (idnumber : string).

Lemma no_completion_app tr1 tr2 :
  no_completion tr1 → no_completion tr2 → no_completion (tr1 ++ tr2).
Proof. unfold no_completion. intros. by apply Forall_app. Qed.

Lemma trace_unchanged self :
  ∃ tr, trace self = (trace self ++ tr)%list ∧ no_completion tr.
Proof. exists []. split; [by rewrite app_nil_r | constructor]. Qed.

(** [make] extends the trace, not with a completion. *)
Lemma make_trace self idnumber kwargs ret self' :
  make self idnumber kwargs = Ok (ret, self') →
  ∃ tr, trace self' = (trace self ++ tr)%list ∧ no_completion tr.
Proof.
  rewrite make_eq.
  destruct (nodes_of self !! object_key self idnumber) as [node|].
  - destruct (resolve_duplicate _ _ _ _) as [[r nodes]|e]; [|done].
    intros [= _ <-]. exists [EvMake idnumber kwargs; EvResolve (data node) kwargs].
    split; [cbn [trace set_nodes emit]; by rewrite <- app_assoc|].
    by (unfold no_completion; repeat (constructor; [discriminate|])).
  - intros [= _ <-]. exists [EvMake idnumber kwargs].
    split; [done|]. by (unfold no_completion; repeat (constructor; [discriminate|])).
Qed.

Lemma process_kwargs_trace self kwargs_in self' :
  process_kwargs self kwargs_in = Ok self' →
  ∃ tr, trace self' = (trace self ++ tr)%list ∧ no_completion tr.
Proof.
  unfold process_kwargs.
  destruct (kwargs_preprocessor (importer self) kwargs_in) as [kwargs|].
  2:{ intros [= <-]. apply trace_unchanged. }
  generalize (has_list_value kwargs). intros has_list.
  destruct (take_idnumber self kwargs) as [[[idnumber kwargs'] self0]|e] eqn:Ht;
    [|done].
  assert (trace self0 = trace self) as Htr.
  { unfold take_idnumber in Ht.
    destruct (kwargs !! "idnumber") as [[[| |s]| |]|]; try done;
      by injection Ht as <- <- <-. }
  cbn. destruct has_list.
  - intros [= <-]. exists [EvBuffer idnumber kwargs'].
    split; [cbn; by rewrite Htr|]. by (unfold no_completion; repeat (constructor; [discriminate|])).
  - destruct (make self0 idnumber kwargs') as [[ret self1]|e] eqn:Hm; [|done].
    cbn. intros [= <-]. apply make_trace in Hm as (tr & Hm & Hn).
    exists tr. by rewrite Hm, Htr.
Qed.

Lemma drain_trace self (records : list Attrs) self' :
  drain self records = Ok self' →
  ∃ tr, trace self' = (trace self ++ tr)%list ∧ no_completion tr.
Proof.
  revert self. induction records as [|kwargs_in records IH]; intros self.
  - intros [= <-]. apply trace_unchanged.
  - cbn [drain].
    destruct (process_kwargs self kwargs_in) as [self1|e] eqn:Hp; [|done].
    cbn. intros (tr2 & H2 & Hn2)%IH.
    apply process_kwargs_trace in Hp as (tr1 & H1 & Hn1).
    exists (tr1 ++ tr2)%list. split; [|by apply no_completion_app].
    by rewrite H2, H1, app_assoc.
Qed.

Lemma merge_fragments_trace self idnumber (prepared : Attrs)
    (kwargs_list : list Attrs) self' :
  merge_fragments self idnumber prepared kwargs_list = Ok self' →
  ∃ tr, trace self' = (trace self ++ tr)%list ∧ no_completion tr.
Proof.
  revert self prepared.
  induction kwargs_list as [|item kwargs_list IH]; intros self prepared.
  - intros [= <-]. apply trace_unchanged.
  - cbn [merge_fragments].
    destruct (merge_item prepared item) as [p1|e]; [|done]. cbn.
    destruct (make self idnumber p1) as [[ret self1]|e] eqn:Hm; [|done].
    cbn. intros (tr2 & H2 & Hn2)%IH.
    apply make_trace in Hm as (tr1 & H1 & Hn1).
    exists (tr1 ++ tr2)%list. split; [|by apply no_completion_app].
    by rewrite H2, H1, app_assoc.
Qed.

Lemma merge_all_trace self (tmp : list (string * list Attrs)) self' :
  merge_all self tmp = Ok self' →
  ∃ tr, trace self' = (trace self ++ tr)%list ∧ no_completion tr.
Proof.
  revert self. induction tmp as [|[idnumber kwargs_list] tmp IH]; intros self.
  - intros [= <-]. apply trace_unchanged.
  - cbn [merge_all].
    destruct (merge_fragments self idnumber ∅ kwargs_list) as [self1|e] eqn:Hm;
      [|done].
    cbn. intros (tr2 & H2 & Hn2)%IH.
    apply merge_fragments_trace in Hm as (tr1 & H1 & Hn1).
    exists (tr1 ++ tr2)%list. split; [|by apply no_completion_app].
    by rewrite H2, H1, app_assoc.
Qed.

Lemma merge_fragments_importer self idnumber (prepared : Attrs)
    (kwargs_list : list Attrs) self' :
  merge_fragments self idnumber prepared kwargs_list = Ok self' →
  importer self' = importer self.
Proof.
  revert self prepared.
  induction kwargs_list as [|item kwargs_list IH]; intros self prepared.
  - by intros [= <-].
  - cbn [merge_fragments].
    destruct (merge_item prepared item) as [p1|e]; [|done]. cbn.
    destruct (make self idnumber p1) as [[ret self1]|e] eqn:Hm; [|done].
    cbn. intros ->%IH. by apply make_frame in Hm as (Hm & _).
Qed.

Lemma merge_all_importer self (tmp : list (string * list Attrs)) self' :
  merge_all self tmp = Ok self' → importer self' = importer self.
Proof.
  revert self. induction tmp as [|[idnumber kwargs_list] tmp IH]; intros self.
  - by intros [= <-].
  - cbn [merge_all].
    destruct (merge_fragments self idnumber ∅ kwargs_list) as [self1|e] eqn:Hm;
      [|done].
    cbn. intros ->%IH. by apply merge_fragments_importer in Hm.
Qed.

End Run.

(** X12.  A run that returns has called the completion hook of the importer
    once, as its very last step, when the importer has one, and not at all
    when it has none. *)
Theorem completion_hook_called_last (self self' : SubBranch) :
  __pos__ self = Ok self' →
  ∃ tr,
    no_completion tr ∧
    trace self' =
      (trace self ++ tr ++
       match on_import_complete (importer self) with
       | Some _ => [EvComplete]
       | None => []
       end)%list.
Proof.
  unfold __pos__.
  destruct (pos_drain self) as [self1|e] eqn:Hd; [|done]. cbn -[Nat.ltb].
  assert (importer self1 = importer self ∧
          ∃ tr, trace self1 = (trace self ++ tr)%list ∧ no_completion tr)
    as (Hi1 & tr1 & H1 & Hn1).
  { unfold pos_drain in Hd. cbn [importer set_index set_temp] in Hd.
    destruct (reader_is_generator (importer self)); split;
      try (by apply drain_handled in Hd as [Hd _]);
      by apply drain_trace in Hd. }
  destruct (if (0 <? length (_temp self1))%nat
            then merge_all self1 (_temp self1) else Ok self1)
    as [self2|e] eqn:Hm; [|done]. cbn -[Nat.ltb].
  assert (∃ tr, trace self2 = (trace self1 ++ tr)%list ∧ no_completion tr)
    as (tr2 & H2 & Hn2).
  { destruct (0 <? length (_temp self1))%nat.
    - by apply merge_all_trace in Hm.
    - injection Hm as <-. apply trace_unchanged. }
  assert (importer self2 = importer self) as Hi2.
  { rewrite <- Hi1. destruct (0 <? length (_temp self1))%nat.
    - by apply merge_all_importer in Hm.
    - by injection Hm as <-. }
  rewrite Hi2.
  destruct (on_import_complete (importer self)) as [hook|].
  - destruct (hook (nodes_of self2)) as [nodes|e]; [|done]. cbn.
    intros [= <-]. exists (tr1 ++ tr2)%list.
    split; [by apply no_completion_app|].
    cbn. by rewrite H2, H1, <- !app_assoc.
  - intros [= <-]. exists (tr1 ++ tr2)%list.
    split; [by apply no_completion_app|].
    by rewrite H2, H1, app_nil_r, <- app_assoc.
Qed.

Lemma completion_hook_called_last_witness :
  ∃ self' tr,
    __pos__ completing_run = Ok self' ∧ no_completion tr ∧
    trace self' = (tr ++ [EvComplete])%list.
Proof.
  destruct (__pos__ completing_run) as [self'|e] eqn:Hrun;
    [|by vm_compute in Hrun].
  destruct (completion_hook_called_last completing_run self' Hrun)
    as (tr & Hn & Htr).
  exists self', tr. split; [reflexivity|]. split; [exact Hn | exact Htr].
Defined.

Section Dispatch.
Implicit Types (self : SubBranch) (kwargs : Attrs) (idnumber : string)
  (tmp : list (string * list Attrs)).

Lemma has_list_value_delete kwargs s :
  kwargs !! "idnumber" = Some (VStr s) →
  has_list_value (delete "idnumber" kwargs) = has_list_value kwargs.
Proof.
  intros Hid. unfold has_list_value.
  rewrite <- (map_to_list_delete kwargs "idnumber" (VStr s) Hid).
  by rewrite filter_cons_False by (cbn; by intros []).
Qed.

Lemma fragments_of_temp_append tmp idnumber kwargs idnumber' :
  fragments_of (temp_append tmp idnumber kwargs) idnumber' =
  (fragments_of tmp idnumber' ++
   if decide (idnumber = idnumber') then [kwargs] else [])%list.
Proof.
  induction tmp as [|[k l] tmp IH]; cbn.
  - by destruct (decide (idnumber = idnumber')).
  - destruct (decide (k = idnumber)) as [->|Hk]; cbn.
    + destruct (decide (idnumber = idnumber')); [done|].
      by rewrite app_nil_r.
    + destruct (decide (k = idnumber')) as [->|Hk'].
      * destruct (decide (idnumber = idnumber')); [congruence|].
        by rewrite app_nil_r.
      * done.
Qed.

Lemma temp_append_keys tmp idnumber kwargs :
  NoDup tmp.*1 → NoDup (temp_append tmp idnumber kwargs).*1.
Proof.
  induction tmp as [|[k l] tmp IH]; cbn; intros Hnd.
  - apply NoDup_singleton.
  - apply NoDup_cons in Hnd as [Hk Hnd].
    destruct (decide (k = idnumber)) as [->|Hne]; cbn.
    + by apply NoDup_cons.
    + apply NoDup_cons. split; [|by apply IH].
      intros Hx. clear IH.
      assert (k = idnumber ∨ k ∈ tmp.*1) as [?|?]; [|done..].
      clear -Hx. induction tmp as [|[k' l'] tmp IH]; cbn in *.
      * apply elem_of_cons in Hx as [->|[]%elem_of_nil]. by left.
      * destruct (decide (k' = idnumber)) as [->|Hk']; cbn in *.
        -- right. done.
        -- apply elem_of_cons in Hx as [->|Hx]; [right; by left|].
           destruct (IH Hx); [by left|]. right. by right.
Qed.

Lemma pairs_cons_list (p : string * Attrs) l idnumber :
  has_list_value p.2 = true →
  made_pairs (p :: l) = made_pairs l ∧
  for_identifier idnumber (buffered_pairs (p :: l)) =
    ((if decide (p.1 = idnumber) then [p.2] else []) ++
     for_identifier idnumber (buffered_pairs l))%list.
Proof.
  intros Hl. unfold made_pairs, buffered_pairs, for_identifier. split.
  - rewrite filter_cons_False; [done|]. by rewrite Hl.
  - rewrite filter_cons_True by exact Hl.
    destruct (decide (p.1 = idnumber)) as [Hp|Hp].
    + rewrite filter_cons_True by exact Hp; done.
    + rewrite filter_cons_False by exact Hp; done.
Qed.

Lemma pairs_cons_scalar (p : string * Attrs) l idnumber :
  has_list_value p.2 = false →
  made_pairs (p :: l) = p :: made_pairs l ∧
  for_identifier idnumber (buffered_pairs (p :: l)) =
    for_identifier idnumber (buffered_pairs l).
Proof.
  intros Hl. unfold made_pairs, buffered_pairs, for_identifier. split.
  - rewrite filter_cons_True by exact Hl; done.
  - rewrite filter_cons_False; [done|]. by rewrite Hl.
Qed.

(** One record goes to [make] or to the buffer, by the lists it carries. *)
Lemma process_kwargs_dispatch self kwargs_in self' :
  process_kwargs self kwargs_in = Ok self' →
  ∀ records,
    let after := identifiers_as_specified (_index self') records in
    let before :=
      identifiers_as_specified (_index self)
        (option_list (kwargs_preprocessor (importer self) kwargs_in)
           ++ records) in
    (make_calls (trace self') ++ made_pairs after)%list =
      (make_calls (trace self) ++ made_pairs before)%list ∧
    (∀ idnumber,
       (fragments_of (_temp self') idnumber ++
        for_identifier idnumber (buffered_pairs after))%list =
       (fragments_of (_temp self) idnumber ++
        for_identifier idnumber (buffered_pairs before))%list) ∧
    (NoDup (_temp self).*1 → NoDup (_temp self').*1).
Proof.
  unfold process_kwargs.
  destruct (kwargs_preprocessor (importer self) kwargs_in) as [kwargs|];
    [|by intros [= <-]].
  destruct (has_list_value kwargs) eqn:Hl;
  unfold take_idnumber; cbn [option_list app];
  (destruct (kwargs !! "idnumber") as [v|] eqn:Hid;
   [destruct v as [[| |s]| |]; try done;
    pose proof (has_list_value_delete kwargs s Hid) as Hdel;
    rewrite Hl in Hdel|]);
  cbn -[identifiers_as_specified made_pairs buffered_pairs for_identifier fragments_of temp_append make_calls].
  - (* explicit identifier, buffered *)
    intros [= <-] records. cbn -[identifiers_as_specified made_pairs buffered_pairs for_identifier fragments_of temp_append make_calls].
    rewrite (identifiers_as_specified_explicit _ _ _ _ Hid).
    split; [|split].
    + rewrite make_calls_app. cbn [make_calls omap list_omap]. rewrite app_nil_r.
      by destruct (pairs_cons_list (s, delete "idnumber" kwargs)
                     (identifiers_as_specified (_index self) records) ""
                     Hdel) as [-> _].
    + intros idnumber. rewrite fragments_of_temp_append.
      destruct (pairs_cons_list (s, delete "idnumber" kwargs)
                  (identifiers_as_specified (_index self) records) idnumber
                  Hdel) as [_ ->].
      by rewrite <- app_assoc.
    + apply temp_append_keys.
  - (* generated identifier, buffered *)
    intros [= <-] records. cbn -[identifiers_as_specified made_pairs buffered_pairs for_identifier fragments_of temp_append make_calls].
    rewrite (identifiers_as_specified_fresh _ _ _ Hid).
    split; [|split].
    + rewrite make_calls_app. cbn [make_calls omap list_omap]. rewrite app_nil_r.
      by destruct (pairs_cons_list (Py.str (_index self), kwargs)
                     (identifiers_as_specified (_index self + 1) records) ""
                     Hl) as [-> _].
    + intros idnumber. rewrite fragments_of_temp_append.
      destruct (pairs_cons_list (Py.str (_index self), kwargs)
                  (identifiers_as_specified (_index self + 1) records)
                  idnumber Hl) as [_ ->].
      by rewrite <- app_assoc.
    + apply temp_append_keys.
  - (* explicit identifier, made at once *)
    destruct (make _ _ _) as [[ret self1]|e] eqn:Hmake; [|done].
    cbn [mbind Res_bind]. intros [= <-] records.
    apply make_frame in Hmake as (_ & Hn & Ht & _ & Hc).
    rewrite (identifiers_as_specified_explicit _ _ _ _ Hid), Hn, Ht, Hc.
    split; [|split; [|done]].
    + destruct (pairs_cons_scalar (s, delete "idnumber" kwargs)
                  (identifiers_as_specified (_index self) records) ""
                  Hdel) as [-> _].
      by rewrite <- app_assoc.
    + intros idnumber.
      by destruct (pairs_cons_scalar (s, delete "idnumber" kwargs)
                     (identifiers_as_specified (_index self) records)
                     idnumber Hdel) as [_ ->].
  - (* generated identifier, made at once *)
    destruct (make _ _ _) as [[ret self1]|e] eqn:Hmake; [|done].
    cbn [mbind Res_bind]. intros [= <-] records.
    apply make_frame in Hmake as (_ & Hn & Ht & _ & Hc).
    rewrite (identifiers_as_specified_fresh _ _ _ Hid), Hn, Ht, Hc.
    cbn [_index _temp set_index].
    split; [|split; [|done]].
    + destruct (pairs_cons_scalar (Py.str (_index self), kwargs)
                  (identifiers_as_specified (_index self + 1) records) ""
                  Hl) as [-> _].
      by rewrite <- app_assoc.
    + intros idnumber.
      by destruct (pairs_cons_scalar (Py.str (_index self), kwargs)
                     (identifiers_as_specified (_index self + 1) records)
                     idnumber Hl) as [_ ->].
Qed.

End Dispatch.

Section DrainDispatch.
Implicit Types (self : SubBranch) (kwargs : Attrs) (idnumber : string).

Lemma drain_dispatch self (records : list Attrs) self' :
  drain self records = Ok self' →
  let spec :=
    identifiers_as_specified (_index self)
      (omap (kwargs_preprocessor (importer self)) records) in
  make_calls (trace self') = (make_calls (trace self) ++ made_pairs spec)%list ∧
  (∀ idnumber,
     fragments_of (_temp self') idnumber =
     (fragments_of (_temp self) idnumber ++
      for_identifier idnumber (buffered_pairs spec))%list) ∧
  (NoDup (_temp self).*1 → NoDup (_temp self').*1).
Proof.
  revert self. induction records as [|kwargs_in records IH]; intros self.
  - intros [= <-]. cbn. rewrite app_nil_r. split; [done|].
    split; [|done]. intros idnumber. by rewrite app_nil_r.
  - cbn [drain].
    destruct (process_kwargs self kwargs_in) as [self1|e] eqn:Hp; [|done].
    cbn [mbind Res_bind]. intros Hd.
    destruct (IH _ Hd) as (Hc & Hf & Hn).
    pose proof (process_kwargs_handled _ _ _ Hp) as [Hi _].
    destruct (process_kwargs_dispatch _ _ _ Hp
                (omap (kwargs_preprocessor (importer self)) records))
      as (Hc1 & Hf1 & Hn1).
    rewrite Hi in Hc, Hf.
    assert (omap (kwargs_preprocessor (importer self)) (kwargs_in :: records)
            = (option_list (kwargs_preprocessor (importer self) kwargs_in)
               ++ omap (kwargs_preprocessor (importer self)) records)%list)
      as ->.
    { cbn. by destruct (kwargs_preprocessor (importer self) kwargs_in). }
    cbn zeta. split; [|split].
    + by rewrite Hc, Hc1.
    + intros idnumber. by rewrite Hf, Hf1.
    + auto.
Qed.

Lemma process_kwargs_index self kwargs_in self' :
  process_kwargs self kwargs_in = Ok self' →
  _index self' =
    _index self +
    length (filter (λ kw, lacks_idnumber kw = true)
              (option_list (kwargs_preprocessor (importer self) kwargs_in))).
Proof.
  unfold process_kwargs.
  destruct (kwargs_preprocessor (importer self) kwargs_in) as [kwargs|];
    [|intros [= <-]; cbn; lia].
  generalize (has_list_value kwargs). intros has_list.
  unfold take_idnumber. change (option_list (Some kwargs)) with [kwargs].
  destruct (kwargs !! "idnumber") as [v|] eqn:Hid.
  - assert (length (filter (λ kw, lacks_idnumber kw = true) [kwargs]) = 0)
      as ->.
    { rewrite filter_cons_False; [done|]. unfold lacks_idnumber.
      by rewrite Hid. }
    destruct v as [[| |s]| |]; try done. cbn. destruct has_list.
    + intros [= <-]. cbn. lia.
    + destruct (make _ _ _) as [[ret self1]|e] eqn:Hmake; [|done].
      cbn. intros [= <-]. apply make_frame in Hmake as (_ & -> & _).
      lia.
  - assert (length (filter (λ kw, lacks_idnumber kw = true) [kwargs]) = 1)
      as ->.
    { rewrite filter_cons_True; [done|]. unfold lacks_idnumber.
      by rewrite Hid. }
    cbn. destruct has_list.
    + intros [= <-]. cbn. lia.
    + destruct (make _ _ _) as [[ret self1]|e] eqn:Hmake; [|done].
      cbn. intros [= <-]. apply make_frame in Hmake as (_ & -> & _).
      cbn. lia.
Qed.

Lemma drain_index self (records : list Attrs) self' :
  drain self records = Ok self' →
  _index self' =
    _index self +
    length (filter (λ kw, lacks_idnumber kw = true)
              (omap (kwargs_preprocessor (importer self)) records)).
Proof.
  revert self. induction records as [|kwargs_in records IH]; intros self.
  - intros [= <-]. cbn. lia.
  - cbn [drain].
    destruct (process_kwargs self kwargs_in) as [self1|e] eqn:Hp; [|done].
    cbn [mbind Res_bind]. intros Hd. rewrite (IH _ Hd).
    pose proof (process_kwargs_handled _ _ _ Hp) as [-> _].
    rewrite (process_kwargs_index _ _ _ Hp).
    assert (omap (kwargs_preprocessor (importer self)) (kwargs_in :: records)
            = (option_list (kwargs_preprocessor (importer self) kwargs_in)
               ++ omap (kwargs_preprocessor (importer self)) records)%list)
      as ->.
    { cbn. by destruct (kwargs_preprocessor (importer self) kwargs_in). }
    rewrite filter_app, length_app. lia.
Qed.

(** Records without a list or a set: all of them are made, none buffered. *)
Lemma pairs_of_scalar_records (next : nat) (records : list Attrs) :
  (∀ kwargs, kwargs ∈ records → has_list_value kwargs = false) →
  made_pairs (identifiers_as_specified next records) =
    identifiers_as_specified next records ∧
  buffered_pairs (identifiers_as_specified next records) = [].
Proof.
  revert next. induction records as [|kwargs records IH]; intros next Hall.
  - done.
  - assert (Hk := Hall kwargs ltac:(by left)).
    assert (Hr : ∀ kw, kw ∈ records → has_list_value kw = false)
      by (intros kw Hkw; apply Hall; by right).
    destruct (kwargs !! "idnumber") as [v|] eqn:Hid.
    + destruct v as [[| |s]| |];
        try (cbn [identifiers_as_specified]; rewrite Hid; done).
      rewrite (identifiers_as_specified_explicit _ _ _ _ Hid).
      assert (Hd : has_list_value (delete "idnumber" kwargs) = false)
        by (by rewrite (has_list_value_delete _ _ Hid)).
      destruct (IH next Hr) as [IH1 IH2].
      destruct (pairs_cons_scalar (s, delete "idnumber" kwargs)
                  (identifiers_as_specified next records) "" Hd) as [-> _].
      split; [by rewrite IH1|].
      unfold buffered_pairs in *. rewrite filter_cons_False; [done|].
      cbn [snd]. by rewrite Hd.
    + rewrite (identifiers_as_specified_fresh _ _ _ Hid).
      destruct (IH (next + 1) Hr) as [IH1 IH2].
      destruct (pairs_cons_scalar (Py.str next, kwargs)
                  (identifiers_as_specified (next + 1) records) "" Hk)
        as [-> _].
      split; [by rewrite IH1|].
      unfold buffered_pairs in *. rewrite filter_cons_False; [done|].
      cbn [snd]. by rewrite Hk.
Qed.

Lemma drain_scalar_temp self (records : list Attrs) self' :
  (∀ kwargs, kwargs ∈ omap (kwargs_preprocessor (importer self)) records →
             has_list_value kwargs = false) →
  drain self records = Ok self' → _temp self' = _temp self.
Proof.
  revert self. induction records as [|kwargs_in records IH]; intros self Hall.
  - by intros [= <-].
  - cbn [drain].
    destruct (process_kwargs self kwargs_in) as [self1|e] eqn:Hp; [|done].
    cbn [mbind Res_bind]. intros Hd.
    pose proof (process_kwargs_handled _ _ _ Hp) as [Hi _].
    rewrite (IH self1); [|rewrite Hi|done].
    2:{ intros kw Hkw. apply Hall. cbn.
        destruct (kwargs_preprocessor (importer self) kwargs_in);
          [by right|done]. }
    clear Hd IH. unfold process_kwargs in Hp.
    destruct (kwargs_preprocessor (importer self) kwargs_in) as [kwargs|] eqn:Hk;
      [|by injection Hp as <-].
    rewrite (Hall kwargs) in Hp by (cbn; rewrite Hk; by left).
    destruct (take_idnumber self kwargs) as [[[idnumber kw'] self0]|e] eqn:Ht;
      [|done].
    cbn in Hp.
    destruct (make self0 idnumber kw') as [[ret self2]|e] eqn:Hm; [|done].
    cbn in Hp. injection Hp as <-.
    apply make_frame in Hm as (_ & _ & -> & _).
    unfold take_idnumber in Ht.
    destruct (kwargs !! "idnumber") as [[[| |s]| |]|]; try done;
      by injection Ht as <- <- <-.
Qed.

End DrainDispatch.

(** X13.  While draining, every handled record goes one way only: a record
    that carries no list and no set is passed to [make] at once, in read
    order, and a record that carries one is appended to the fragments
    buffered for its identifier, in read order, and is not made.  The
    buffer holds one entry for an identifier. *)
Theorem drain_dispatches_records (self self' : SubBranch) :
  pos_drain self = Ok self' →
  let spec :=
    identifiers_as_specified 0
      (omap (kwargs_preprocessor (importer self)) (reader (importer self))) in
  make_calls (trace self') = (make_calls (trace self) ++ made_pairs spec)%list ∧
  (∀ idnumber,
     fragments_of (_temp self') idnumber =
     for_identifier idnumber (buffered_pairs spec)) ∧
  NoDup (_temp self').*1.
Proof.
  intros Hd spec. unfold pos_drain in Hd.
  cbn [importer set_index set_temp] in Hd.
  assert (drain (set_index (set_temp self []) 0) (reader (importer self))
          = Ok self') as Hd'
    by (by destruct (reader_is_generator (importer self))).
  apply drain_dispatch in Hd' as (Hc & Hf & Hn).
  split; [exact Hc|]. split; [exact Hf|]. apply Hn. constructor.
Qed.

Lemma drain_dispatches_records_witness :
  ∃ self',
    pos_drain grouped_run = Ok self' ∧
    make_calls (trace self') = [("0", {[ "name" := VStr "u" ]})] ∧
    fragments_of (_temp self') "k" =
      [ {[ "tags" := VList [VStr "a"] ]}; {[ "tags" := VList [VStr "b"] ]} ].
Proof.
  destruct (pos_drain grouped_run) as [self'|e] eqn:Hd;
    [|by vm_compute in Hd].
  destruct (drain_dispatches_records grouped_run self' Hd) as (Hc & Hf & _).
  exists self'. split; [reflexivity|]. split.
  - rewrite Hc. vm_compute. reflexivity.
  - rewrite Hf. vm_compute. reflexivity.
Defined.

(** X14.  In a run whose records carry no list and no set, [make] is
    called once for every record that passes the preprocessing hook, in
    read order, with its identifier and its attributes; nothing is
    buffered and the merge makes no call. *)
Theorem scalar_run_makes_each_record_once (self self' : SubBranch) :
  let records :=
    omap (kwargs_preprocessor (importer self)) (reader (importer self)) in
  (∀ kwargs, kwargs ∈ records → has_list_value kwargs = false) →
  __pos__ self = Ok self' →
  make_calls (trace self') =
    (make_calls (trace self) ++ identifiers_as_specified 0 records)%list ∧
  _temp self' = [].
Proof.
  intros records Hall. unfold __pos__.
  destruct (pos_drain self) as [self1|e] eqn:Hd; [|done].
  cbn -[Nat.ltb].
  assert (Ht : _temp self1 = []).
  { unfold pos_drain in Hd. cbn [importer set_index set_temp] in Hd.
    assert (drain (set_index (set_temp self []) 0) (reader (importer self))
            = Ok self1) as Hd'
      by (by destruct (reader_is_generator (importer self))).
    by apply drain_scalar_temp in Hd'. }
  assert (Hi : importer self1 = importer self).
  { unfold pos_drain in Hd. cbn [importer set_index set_temp] in Hd.
    destruct (reader_is_generator (importer self));
      by apply drain_handled in Hd as [Hd _]. }
  assert (Hc : make_calls (trace self1) =
    (make_calls (trace self) ++
     made_pairs (identifiers_as_specified 0 records))%list).
  { unfold pos_drain in Hd. cbn [importer set_index set_temp] in Hd.
    assert (drain (set_index (set_temp self []) 0) (reader (importer self))
            = Ok self1) as Hd'
      by (by destruct (reader_is_generator (importer self))).
    by apply drain_dispatch in Hd' as (Hc & _ & _). }
  rewrite (proj1 (pairs_of_scalar_records 0 records Hall)) in Hc.
  rewrite Ht. cbn. rewrite Hi.
  destruct (on_import_complete (importer self)) as [hook|].
  - destruct (hook (nodes_of self1)) as [nodes|e]; [|done]. cbn.
    intros [= <-]. cbn. rewrite make_calls_app, Hc. cbn.
    by rewrite app_nil_r.
  - by intros [= <-].
Qed.

Lemma scalar_records_hold_no_list :
  ∀ kwargs, kwargs ∈ scalar_records → has_list_value kwargs = false.
Proof.
  intros kwargs Hin. unfold scalar_records in Hin.
  apply elem_of_cons in Hin as [-> | Hin]; [vm_compute; reflexivity|].
  apply elem_of_cons in Hin as [-> | Hin]; [vm_compute; reflexivity|].
  apply elem_of_cons in Hin as [-> | Hin]; [vm_compute; reflexivity|].
  by apply elem_of_nil in Hin.
Qed.

Lemma scalar_run_makes_each_record_once_witness :
  ∃ self',
    __pos__ scalars_run = Ok self' ∧
    make_calls (trace self') =
      [("0", {[ "name" := VStr "u" ]}); ("1", {[ "name" := VStr "v" ]});
       ("2", {[ "name" := VStr "w" ]})].
Proof.
  destruct (__pos__ scalars_run) as [self'|e] eqn:Hrun;
    [|by vm_compute in Hrun].
  destruct (scalar_run_makes_each_record_once scalars_run self') as [Hc _].
  - intros kwargs Hin.
    assert (omap (kwargs_preprocessor (importer scalars_run))
              (reader (importer scalars_run)) = scalar_records) as Hrec
      by (vm_compute; reflexivity).
    rewrite Hrec in Hin. by apply scalar_records_hold_no_list.
  - exact Hrun.
  - exists self'. split; [reflexivity|]. rewrite Hc. vm_compute. reflexivity.
Defined.

(** X15.  After draining, the counter of the run is the number of handled
    records that held no explicit identifier: a skipped record and a record
    with its own identifier consume no number. *)
Theorem counter_counts_generated_identifiers (self self' : SubBranch) :
  pos_drain self = Ok self' →
  _index self' =
    length (filter (λ kw, lacks_idnumber kw = true)
              (omap (kwargs_preprocessor (importer self))
                 (reader (importer self)))).
Proof.
  intros Hd. unfold pos_drain in Hd.
  cbn [importer set_index set_temp] in Hd.
  assert (drain (set_index (set_temp self []) 0) (reader (importer self))
          = Ok self') as Hd'
    by (by destruct (reader_is_generator (importer self))).
  by apply drain_index in Hd'.
Qed.

Lemma counter_counts_generated_identifiers_witness :
  ∃ self', pos_drain mixed_run = Ok self' ∧ _index self' = 2.
Proof.
  destruct (pos_drain mixed_run) as [self'|e] eqn:Hd;
    [|by vm_compute in Hd].
  exists self'. split; [reflexivity|].
  rewrite (counter_counts_generated_identifiers mixed_run self' Hd).
  vm_compute. reflexivity.
Defined.

(** ** The merge, further *)

Section MergeErrors.
Implicit Types (prepared item p : Attrs) (k : string) (v : Value).

Lemma foldM_raises_only {A S} (g : S → A → Res S) (e0 : exn) (l : list A)
    (s : S) (e : exn) :
  (∀ s x e, g s x = Raise e → e = e0) → foldM g s l = Raise e → e = e0.
Proof.
  intros Hg. revert s. induction l as [|x l IH]; intros s; [done|].
  cbn [foldM]. destruct (g s x) as [s'|e'] eqn:Hx; cbn.
  - apply IH.
  - intros [= <-]. by apply (Hg s x).
Qed.

Lemma list_step_raises p kv e : list_step p kv = Raise e → e = AttributeError.
Proof.
  unfold list_step, extend_list. destruct kv.2 as [a|l|s]; try done.
  destruct (p !! kv.1) as [[a|acc|s]|]; congruence.
Qed.

Lemma set_step_raises p kv e : set_step p kv = Raise e → e = AttributeError.
Proof.
  unfold set_step, update_set. destruct kv.2 as [a|l|s]; try done.
  destruct (p !! kv.1) as [[a|acc|s']|]; congruence.
Qed.

(** The merge of one fragment raises nothing but [AttributeError]. *)
Lemma merge_item_raises prepared item e :
  merge_item prepared item = Raise e → e = AttributeError.
Proof.
  unfold merge_item.
  destruct (foldM list_step prepared (map_to_list item)) as [p1|e1] eqn:H1;
    cbn.
  - destruct (foldM set_step p1 (map_to_list item)) as [p2|e2] eqn:H2;
      cbn; [done|].
    intros [= <-]. by apply (foldM_raises_only _ _ _ _ _ set_step_raises H2).
  - intros [= <-]. by apply (foldM_raises_only _ _ _ _ _ list_step_raises H1).
Qed.

End MergeErrors.

(** X16.  Merging a fragment that holds a list under a name for which the
    fragments before left something that is not a list (a scalar or a set)
    raises [AttributeError], and so does a set that meets something that is
    not a set: the accumulated value has no [extend], or no [update]. *)
Theorem merge_item_type_clash (prepared item : Attrs) (k : string)
    (old v : Value) :
  prepared !! k = Some old → item !! k = Some v →
  (is_list v = true ∧ is_list old = false) ∨
  (is_set v = true ∧ is_set old = false) →
  merge_item prepared item = Raise AttributeError.
Proof.
  intros Hold Hv Hclash.
  destruct (merge_item prepared item) as [p'|e] eqn:Hm.
  2:{ by rewrite (merge_item_raises _ _ _ Hm). }
  exfalso. unfold merge_item in Hm.
  destruct (foldM list_step prepared (map_to_list item)) as [p1|e1] eqn:H1;
    [|done].
  cbn in Hm.
  destruct (foldM set_step p1 (map_to_list item)) as [p2|e2] eqn:H2; [|done].
  pose proof (NoDup_fst_map_to_list item) as Hnd.
  apply elem_of_map_to_list in Hv.
  destruct (foldM_keyed_at _ _ _ _ _ _ list_step_keyed Hnd Hv H1)
    as (q0 & q1 & Hq0 & Hq1 & Hp1).
  destruct (foldM_keyed_at _ _ _ _ _ _ set_step_keyed Hnd Hv H2)
    as (r0 & r1 & Hr0 & Hr1 & Hp2).
  rewrite Hold in Hq0.
  destruct Hclash as [[Hl Ho] | [Hs Ho]].
  - destruct v as [a|l|s]; try done.
    unfold list_step, extend_list in Hq1. cbn in Hq1. rewrite Hq0 in Hq1.
    by destruct old as [a|acc|s].
  - destruct v as [a|l|s]; try done.
    assert (q1 = q0) as -> by (cbn in Hq1; congruence).
    rewrite Hp1, Hq0 in Hr0.
    unfold set_step, update_set in Hr1. cbn in Hr1. rewrite Hr0 in Hr1.
    by destruct old as [a|acc|s'].
Qed.

Lemma merge_item_type_clash_witness :
  merge_item {[ "tags" := VStr "x" ]} {[ "tags" := VList [VStr "a"] ]}
  = Raise AttributeError.
Proof.
  apply (merge_item_type_clash _ _ "tags" (VStr "x") (VList [VStr "a"]));
    [vm_compute; reflexivity .. |].
  left. split; reflexivity.
Defined.

(** A run whose fragments clash raises, after the first fragment was made. *)
Example import_with_clashing_fragments :
  __pos__ clash_run = Raise AttributeError.
Proof. vm_compute. reflexivity. Qed.

(** X17.  In the merge of the fragments of an identifier, [make] is called
    after every fragment, and the call after the fragment of rank [i]
    receives, under every name, the merge of the fragments up to that rank:
    lists concatenated in arrival order, sets unioned, any other value
    replaced by the latest. *)
Theorem merge_calls_carry_running_merge (self self' : SubBranch)
    (idnumber : string) (kwargs_list : list Attrs) :
  merge_fragments self idnumber ∅ kwargs_list = Ok self' →
  ∃ accs : list Attrs,
    make_calls (trace self') =
      (make_calls (trace self) ++ map (λ acc, (idnumber, acc)) accs)%list ∧
    length accs = length kwargs_list ∧
    ∀ i acc k, accs !! i = Some acc →
               acc !! k = merged_attribute k None (take (S i) kwargs_list).
Proof.
  intros (accs & Hc & Hl & Hacc)%merge_fragments_calls.
  exists accs. split; [done|]. split; [done|]. intros i acc k Hi.
  rewrite (merge_items_lookup _ _ _ k (Hacc i acc Hi)).
  by rewrite lookup_empty.
Qed.

Lemma merge_calls_carry_running_merge_witness :
  ∃ self' (accs : list Attrs),
    merge_fragments fragments_run "5" ∅
      [delete "idnumber" fragment1; delete "idnumber" fragment2;
       delete "idnumber" fragment3] = Ok self' ∧
    length accs = 3 ∧
    ∀ acc, accs !! 2 = Some acc →
           acc !! "tags" = Some (VList [VStr "a"; VStr "b"; VStr "c"]) ∧
           acc !! "name" = Some (VStr "y").
Proof.
  destruct (merge_fragments fragments_run "5" ∅
              [delete "idnumber" fragment1; delete "idnumber" fragment2;
               delete "idnumber" fragment3]) as [self'|e] eqn:Hm;
    [|by vm_compute in Hm].
  destruct (merge_calls_carry_running_merge _ _ _ _ Hm)
    as (accs & _ & Hl & Hacc).
  exists self', accs. split; [reflexivity|]. split; [exact Hl|].
  intros acc Hi. split.
  - rewrite (Hacc 2 acc "tags" Hi). vm_compute. reflexivity.
  - rewrite (Hacc 2 acc "name" Hi). vm_compute. reflexivity.
Defined.

(** ** What a run leaves in place *)

Section Grows.
Implicit Types (self : SubBranch) (kwargs : Attrs) (idnumber : string).

Lemma grows_refl self : grows self self.
Proof. by repeat split. Qed.

Lemma grows_importer self self' :
  grows self self' → importer self' = importer self.
Proof. by intros (_ & _ & _ & _ & H & _). Qed.

Lemma grows_trans self1 self2 self3 :
  grows self1 self2 → grows self2 self3 → grows self1 self3.
Proof.
  intros (H1 & H2 & H3 & H4 & H5 & H6) (G1 & G2 & G3 & G4 & G5 & G6).
  repeat split; try congruence. by etrans.
Qed.

Lemma make_grows self idnumber kwargs ret self' :
  hooks_keep_nodes (importer self) →
  make self idnumber kwargs = Ok (ret, self') → grows self self'.
Proof.
  intros [Hh _]. rewrite make_eq.
  destruct (nodes_of self !! object_key self idnumber) as [node|] eqn:Hn.
  - destruct (resolve_duplicate _ _ _ _) as [[r nodes]|e] eqn:Hr; [|done].
    intros [= _ <-]. repeat split. cbn. by apply Hh in Hr.
  - intros [= _ <-]. repeat split. cbn. by apply insert_subseteq.
Qed.

Lemma process_kwargs_grows self kwargs_in self' :
  hooks_keep_nodes (importer self) →
  process_kwargs self kwargs_in = Ok self' → grows self self'.
Proof.
  intros Hh. unfold process_kwargs.
  destruct (kwargs_preprocessor (importer self) kwargs_in) as [kwargs|];
    [|intros [= <-]; apply grows_refl].
  generalize (has_list_value kwargs). intros has_list.
  destruct (take_idnumber self kwargs) as [[[idnumber kw'] self0]|e] eqn:Ht;
    [|done].
  assert (grows self self0) as H0.
  { unfold take_idnumber in Ht.
    destruct (kwargs !! "idnumber") as [[[| |s]| |]|]; try done;
      injection Ht as <- <- <-; by repeat split. }
  cbn. destruct has_list.
  - intros [= <-]. eapply grows_trans; [exact H0|]. by repeat split.
  - destruct (make self0 idnumber kw') as [[ret self1]|e] eqn:Hm; [|done].
    cbn. intros [= <-]. eapply grows_trans; [exact H0|].
    apply (make_grows _ _ _ _ _) in Hm; [done|].
    by rewrite (grows_importer _ _ H0).
Qed.

Lemma drain_grows self (records : list Attrs) self' :
  hooks_keep_nodes (importer self) →
  drain self records = Ok self' → grows self self'.
Proof.
  revert self. induction records as [|kwargs_in records IH]; intros self Hh.
  - intros [= <-]. apply grows_refl.
  - cbn [drain].
    destruct (process_kwargs self kwargs_in) as [self1|e] eqn:Hp; [|done].
    cbn. intros Hd. apply (process_kwargs_grows _ _ _ Hh) in Hp.
    eapply grows_trans; [exact Hp|]. apply IH; [|done].
    by rewrite (grows_importer _ _ Hp).
Qed.

Lemma merge_fragments_grows self idnumber (prepared : Attrs)
    (kwargs_list : list Attrs) self' :
  hooks_keep_nodes (importer self) →
  merge_fragments self idnumber prepared kwargs_list = Ok self' →
  grows self self'.
Proof.
  revert self prepared.
  induction kwargs_list as [|item kwargs_list IH]; intros self prepared Hh.
  - intros [= <-]. apply grows_refl.
  - cbn [merge_fragments].
    destruct (merge_item prepared item) as [p1|e]; [|done]. cbn.
    destruct (make self idnumber p1) as [[ret self1]|e] eqn:Hm; [|done].
    cbn. intros Hf. apply (make_grows _ _ _ _ _ Hh) in Hm.
    eapply grows_trans; [exact Hm|]. eapply IH; [|exact Hf].
    by rewrite (grows_importer _ _ Hm).
Qed.

Lemma merge_all_grows self (tmp : list (string * list Attrs)) self' :
  hooks_keep_nodes (importer self) →
  merge_all self tmp = Ok self' → grows self self'.
Proof.
  revert self. induction tmp as [|[idnumber kwargs_list] tmp IH];
    intros self Hh.
  - intros [= <-]. apply grows_refl.
  - cbn [merge_all].
    destruct (merge_fragments self idnumber ∅ kwargs_list) as [self1|e] eqn:Hm;
      [|done].
    cbn. intros Ha. apply (merge_fragments_grows _ _ _ _ _ Hh) in Hm.
    eapply grows_trans; [exact Hm|]. apply IH; [|done].
    by rewrite (grows_importer _ _ Hm).
Qed.

Lemma pos_grows self self' :
  hooks_keep_nodes (importer self) →
  __pos__ self = Ok self' → grows self self'.
Proof.
  intros Hh. unfold __pos__.
  destruct (pos_drain self) as [self1|e] eqn:Hd; [|done]. cbn -[Nat.ltb].
  assert (grows self self1) as H1.
  { unfold pos_drain in Hd. cbn [importer set_index set_temp] in Hd.
    apply (grows_trans _ (set_index (set_temp self []) 0));
      [by repeat split|].
    destruct (reader_is_generator (importer self));
      by apply drain_grows in Hd. }
  assert (Hi1 := proj1 (proj2 (proj2 (proj2 (proj2 H1))))).
  destruct (if (0 <? length (_temp self1))%nat
            then merge_all self1 (_temp self1) else Ok self1)
    as [self2|e] eqn:Hm; [|done]. cbn -[Nat.ltb].
  assert (grows self1 self2) as H2.
  { destruct (0 <? length (_temp self1))%nat.
    - apply merge_all_grows in Hm; [done|]. by rewrite Hi1.
    - injection Hm as <-. apply grows_refl. }
  assert (Hi2 := proj1 (proj2 (proj2 (proj2 (proj2 H2))))).
  rewrite Hi2, Hi1.
  destruct (on_import_complete (importer self)) as [hook|] eqn:Hc.
  - destruct (hook (nodes_of self2)) as [nodes|e] eqn:Hk; [|done]. cbn.
    intros [= <-]. eapply grows_trans; [exact H1|].
    eapply grows_trans; [exact H2|].
    repeat split. cbn. by apply (proj2 Hh hook _ _ Hc) in Hk.
  - intros [= <-]. by eapply grows_trans.
Qed.

Lemma get_grows self self' idnumber (o : Obj) :
  grows self self' →
  get self idnumber = Ok (Some o) → get self' idnumber = Ok (Some o).
Proof.
  intros (_ & Hb & Hs & Hd & _ & Hn). rewrite !get_eq.
  assert (object_key self' idnumber = object_key self idnumber) as ->.
  { unfold object_key, keypath. unfold self_path_delim in Hd.
    by rewrite Hb, Hs, Hd. }
  destruct (nodes_of self !! object_key self idnumber) as [node|] eqn:Hl;
    [|done].
  by rewrite (lookup_weaken _ _ _ _ Hl Hn).
Qed.

End Grows.

(** X18.  A run whose importer hooks leave the stored nodes alone never
    replaces or removes a node: every node that was stored before the run
    is stored unchanged after it, and every object that [get] found before
    is found after.  [make] only inserts under keys that were free. *)
Theorem import_keeps_existing_nodes (self self' : SubBranch) :
  hooks_keep_nodes (importer self) →
  __pos__ self = Ok self' →
  nodes_of self ⊆ nodes_of self' ∧
  ∀ idnumber o,
    get self idnumber = Ok (Some o) → get self' idnumber = Ok (Some o).
Proof.
  intros Hh Hrun. pose proof (pos_grows self self' Hh Hrun) as Hg.
  split; [by destruct Hg as (_ & _ & _ & _ & _ & Hn)|].
  intros idnumber o. by apply get_grows.
Qed.

Lemma importer_of_keeps_nodes (records : list Attrs) :
  hooks_keep_nodes (importer_of records).
Proof.
  split.
  - intros existing kwargs nodes ret nodes' [= _ <-]. done.
  - intros hook nodes nodes' [=].
Qed.

Lemma import_keeps_existing_nodes_witness :
  ∃ self',
    __pos__ people_run = Ok self' ∧
    get self' "2" = Ok (Some (person "Joanna")).
Proof.
  destruct (__pos__ people_run) as [self'|e] eqn:Hrun;
    [|by vm_compute in Hrun].
  exists self'. split; [reflexivity|].
  apply (proj2 (import_keeps_existing_nodes people_run self'
                  (importer_of_keeps_nodes _) Hrun)).
  vm_compute. reflexivity.
Defined.

(** ** Further facts on keys, records and narrowed views *)

(** X19.  The identifier joined into a key is read back from the key by
    the scan exactly when it holds no delimiter; otherwise the scan reads
    what follows its last delimiter. *)
Theorem identifier_round_trip (self : SubBranch) (x : string) :
  Py.last_segment (Py.split (self_path_delim self) (object_key self x)) = x
  ↔ contains (self_path_delim self) x = false.
Proof.
  split; [|apply last_segment_object_key].
  intros Hx. rewrite <- Hx.
  pose proof (split_segments (self_path_delim self) (object_key self x))
    as Hall.
  rewrite Forall_forall in Hall. apply Hall.
  apply last_segment_elem, split_nonempty.
Qed.

Lemma identifier_round_trip_witness :
  Py.last_segment (Py.split "/" (object_key people "7")) = "7".
Proof. apply (proj2 (identifier_round_trip people "7")). reflexivity. Defined.

(** An identifier with a delimiter is cut by the scan. *)
Example identifier_with_delimiter :
  Py.last_segment (Py.split "/" (object_key people "x/y")) = "y".
Proof. vm_compute. reflexivity. Qed.

(** X21.  The operators of a narrowed subbranch are computed from the
    collection it wraps, whatever its own store holds: an identifier of the
    collection that the store does not hold is yielded all the same. *)
Theorem narrowed_operators (self other : SubBranch) (C : list string)
    (nodes : gmap string Node) :
  klass self = KSubBranchNarrow C →
  list_to_set (__sub__ (set_nodes self nodes) other) =
    list_to_set C ∖ idnumbers other ∧
  list_to_set (__and__ (set_nodes self nodes) other) =
    list_to_set C ∩ idnumbers other.
Proof.
  intros Hk.
  assert (idnumbers (set_nodes self nodes) = list_to_set C) as Hid.
  { unfold idnumbers. change (klass (set_nodes self nodes)) with (klass self).
    by rewrite Hk. }
  unfold __sub__, __and__.
  change (klass (set_nodes self nodes)) with (klass self).
  by rewrite Hk, Hid, !list_to_set_elements_L.
Qed.

Lemma narrowed_operators_witness :
  list_to_set (__sub__ narrowed_unknown people) = ({["8"]} : gset string).
Proof.
  destruct (narrowed_operators narrowed_unknown people ["3"; "8"]
              (nodes_of narrowed_unknown) eq_refl) as [H _].
  change (set_nodes narrowed_unknown (nodes_of narrowed_unknown))
    with narrowed_unknown in H.
  rewrite H. vm_compute. reflexivity.
Defined.
